(** * BasicBonds: the [Bonds] space of lifelib's asset library

    A shallow embedding of
    [lifelib/libraries/assets/BasicBonds_BAK3/Bonds/__init__.py].

    The space is a set of formulas over two configured dates, a bond table
    and a zero-curve table.  Everything numerical is delegated to QuantLib
    (the reference [ql]); what the space itself implements is the projection
    axis ([dates], [t_length]), the bucketing of a bond's cashflow events into
    the periods of that axis ([cashflows], [redemptions]), the portfolio
    totals, and the wiring of the QuantLib objects ([schedule],
    [riskfree_curve], [discount_curve], [fixed_rate_bond], [market_values]).

    Conventions of the embedding:
    - a QuantLib date is a calendar triple, compared field by field;
    - Python numbers (the floats that QuantLib returns, the integer [0] and
      [100] of the source) are an abstract type [num] with the operations the
      source uses, so that no law of arithmetic is assumed unless a theorem
      says so;
    - QuantLib objects are the symbolic records of their constructor
      arguments, and QuantLib's own computations (cashflow generation,
      pricing) are the operations of the class [QuantLib];
    - a formula is a computation in a state-and-exception monad: the state is
      QuantLib's global [Settings], the exceptions are the Python exceptions
      the source can raise. *)

From stdpp Require Import base numbers list strings.
From Equations Require Import Equations.
From Stdlib Require Floats.PrimFloat Numbers.Cyclic.Int63.Uint63.

Local Open Scope Z_scope.

(** ** Dates *)

Record Date := mkDate { year : Z; month : Z; dayOfMonth : Z }.

(** [a < b] on dates.  QuantLib compares serial day numbers, which on
    calendar dates is the lexicographic order of (year, month, day). *)
Definition date_ltb (a b : Date) : bool :=
  (year a <? year b)
  || ((year a =? year b)
      && ((month a <? month b)
          || ((month a =? month b) && (dayOfMonth a <? dayOfMonth b)))).

(** [a <= b] on dates. *)
Definition date_leb (a b : Date) : bool := negb (date_ltb b a).

(** The Gregorian rule, which is QuantLib's table of leap years on the
    years 1901..2199 of its dates. *)
Definition isLeap (y : Z) : bool :=
  (y mod 4 =? 0) && (negb (y mod 100 =? 0) || (y mod 400 =? 0)).

(** [d + ql.Period('1Y')]: same day and month of the next year, the 29th of
    February becoming the 28th when that year is not a leap year.  QuantLib
    additionally refuses years outside 1901..2199; that refusal is left out
    here and added in [ql_add_1Y] below. *)
Definition add_1Y (d : Date) : Date :=
  let y := year d + 1 in
  if (dayOfMonth d =? 29) && (month d =? 2) && negb (isLeap y)
  then mkDate y 2 28
  else mkDate y (month d) (dayOfMonth d).

(** ** Python exceptions and QuantLib's global settings *)

Inductive exn := AssertionError | KeyError | IndexError | RuntimeError.

Inductive outcome (A : Type) :=
| Ok (a : A)
| Raise (e : exn).
Arguments Ok {A} a.
Arguments Raise {A} e.

(** [ql.Settings.instance()]: the evaluation date and the other global
    switches of the library. *)
Record Settings := mkSettings {
  evaluationDate : Date;
  includeReferenceDateEvents : bool;
  includeTodaysCashFlows : option bool;
  enforcesTodaysHistoricFixings : bool
}.

Definition set_evaluationDate (d : Date) (s : Settings) : Settings :=
  {| evaluationDate := d;
     includeReferenceDateEvents := includeReferenceDateEvents s;
     includeTodaysCashFlows := includeTodaysCashFlows s;
     enforcesTodaysHistoricFixings := enforcesTodaysHistoricFixings s |}.

(** A formula: it reads and writes the settings and returns or raises.  The
    settings written before an exception stay written. *)
Definition M (A : Type) : Type := Settings -> outcome A * Settings.

Definition ret {A} (a : A) : M A := fun s => (Ok a, s).

Definition bind {A B} (m : M A) (k : A -> M B) : M B :=
  fun s => match m s with
           | (Ok a, s') => k a s'
           | (Raise e, s') => (Raise e, s')
           end.

Definition lift {A} (o : outcome A) : M A := fun s => (o, s).

Definition put_evaluationDate (d : Date) : M unit :=
  fun s => (Ok tt, set_evaluationDate d s).

Declare Scope formula_scope.
Delimit Scope formula_scope with formula.
Notation "x <- c1 ;; c2" := (bind c1 (fun x => c2))
  (at level 100, c1 at next level, right associativity) : formula_scope.
Notation "c1 ;;; c2" := (bind c1 (fun _ => c2))
  (at level 100, right associativity) : formula_scope.

(** The same sequencing inside a loop that cannot touch the settings. *)
Definition obind {A B} (o : outcome A) (k : A -> outcome B) : outcome B :=
  match o with
  | Ok a => k a
  | Raise e => Raise e
  end.

(** ** QuantLib's enumerations and objects *)

Inductive Frequency := Annual | Semiannual.
Inductive Compounding := Simple | Compounded | Continuous.
Inductive DayCounter := Actual360 | Thirty360.
Inductive Calendar := UnitedStates.
Inductive BusinessDayConvention := Following | Unadjusted.
Inductive DateGenerationRule := Backward | Forward.
Inductive Interpolator := Linear.

(** [ql.Period(frequency)]. *)
Record Period := mkPeriod { frequency : Frequency }.

Record Schedule := mkSchedule {
  effectiveDate : Date;
  terminationDate : Date;
  sch_tenor : Period;
  sch_calendar : Calendar;
  sch_convention : BusinessDayConvention;
  terminationDateConvention : BusinessDayConvention;
  sch_rule : DateGenerationRule;
  endOfMonth : bool
}.

Section Space.

(** Python's numbers. *)
Context {num : Type}.

(** ** The arithmetic of the source *)
Class Arith := {
  add : num -> num -> num;      (* [x + y], also the [+=] of the loops *)
  mul : num -> num -> num;      (* [x * y] *)
  div : num -> num -> num;      (* [x / y] *)
  of_int : Z -> num             (* an integer literal or column used as a number *)
}.
Context {arith : Arith}.

(** A cashflow event of a leg: [cf.date()] and [cf.amount()]. *)
Record CashFlow := mkCashFlow { cf_date : Date; cf_amount : num }.

Inductive YieldTermStructure :=
| ZeroCurve (spot_dates : list Date) (spot_rates : list num)
    (dayCount : DayCounter) (calendar : Calendar) (i : Interpolator)
    (compounding : Compounding) (freq : Frequency)
| ZeroSpreadedTermStructure (base : YieldTermStructure) (spread : num)
    (compounding : Compounding) (freq : Frequency).

Inductive PricingEngine :=
| DiscountingBondEngine (discountCurve : YieldTermStructure).

Record FixedRateBond := mkFixedRateBond {
  settlementDays : Z;
  faceAmount : num;
  bond_schedule : Schedule;
  coupons : list num;
  accrualDayCounter : DayCounter;
  paymentConvention : BusinessDayConvention;
  pricingEngine : option PricingEngine
}.

(** [bond.setPricingEngine(engine)] *)
Definition setPricingEngine (e : PricingEngine) (b : FixedRateBond) : FixedRateBond :=
  {| settlementDays := settlementDays b;
     faceAmount := faceAmount b;
     bond_schedule := bond_schedule b;
     coupons := coupons b;
     accrualDayCounter := accrualDayCounter b;
     paymentConvention := paymentConvention b;
     pricingEngine := Some e |}.

(** ** What the space asks of QuantLib

    The methods of the library that compute: they are outside the
    repository, and the claims about the space hold whatever they return.
    Prices and notionals are read at the evaluation date of the settings. *)
Class QuantLib := {
  ql_cashflows : FixedRateBond -> list CashFlow;     (* [bond.cashflows()] *)
  ql_redemptions : FixedRateBond -> list CashFlow;   (* [bond.redemptions()] *)
  ql_notional : Settings -> FixedRateBond -> num;    (* [bond.notional()] *)
  ql_cleanPrice : Settings -> FixedRateBond -> num;  (* [bond.cleanPrice()] *)
  ql_date_plus : Date -> string -> Date              (* [d + ql.Period(dur)] *)
}.
Context {ql : QuantLib}.

(** ** References of the space *)

(** A row of [bond_data]. *)
Record BondRow := mkBondRow {
  settlement_days : Z;
  face_value : Z;
  issue_date : Date;
  bond_term : Z;
  maturity_date : Date;
  tenor : string;
  coupon_rate : num;
  z_spread : num
}.

(** [date_init] and [date_end] (parsed), [bond_data] as its rows in index
    order, each with its bond id, and [zero_curve] as its (duration, rate)
    rows. *)
Variables date_init date_end : Date.
Variable bond_data : list (Z * BondRow).
Variable zero_curve : list (string * num).

(** [bond_data.index] *)
Definition bond_index : list Z := map fst bond_data.

Fixpoint assoc (rows : list (Z * BondRow)) (bond_id : Z) : option BondRow :=
  match rows with
  | [] => None
  | (k, row) :: rows' => if k =? bond_id then Some row else assoc rows' bond_id
  end.

(** [bond_data.loc[bond_id]]: the row of the bond, or [KeyError]. *)
Definition loc (bond_id : Z) : M BondRow :=
  lift (match assoc bond_data bond_id with
        | Some row => Ok row
        | None => Raise KeyError
        end).

(** ** The projection axis *)

(** [dates(t)] *)
Fixpoint dates (t : nat) : Date :=
  match t with
  | O => date_init
  | S t' => add_1Y (dates t')
  end.

(** The loop of [t_length], entered with the counter at [t]:
    [while True: if dates(t) < d_end: t += 1 else: return t].
    It ends because every step moves the axis one year closer to the year
    after [date_end]. *)
Equations? t_length_from (t : nat) : nat
  by wf (Z.to_nat (year date_end + 1 - year (dates t))) lt :=
  t_length_from t with Logic.inspect (date_ltb (dates t) date_end) => {
    | exist _ true Hlt => t_length_from (S t);
    | exist _ false _ => t }.
Proof.
  assert (Hyear : year (dates t) <= year date_end).
  { unfold date_ltb in Hlt.
    destruct (Z.ltb_spec (year (dates t)) (year date_end)); [lia|].
    destruct (Z.eqb_spec (year (dates t)) (year date_end)); [lia|done]. }
  cbn [dates]. unfold add_1Y. destruct (_ && _); cbn [year]; lia.
Qed.

(** [t_length()] *)
Definition t_length : nat := t_length_from 0.

(** ** The axis inside the date range of the library

    QuantLib has dates for the years 1901 to 2199 only.  Building a date of
    another year, from a string or by adding a period to a date, is refused
    with an error, which Python sees as a [RuntimeError].  [dates] and
    [t_length] above are the axis without that limit; the definitions below
    are the same code with the refusals. *)

Definition year_in_range (y : Z) : bool := (1901 <=? y) && (y <=? 2199).

(** [ql.Date(date, "%Y-%m-%d")] on a configured date. *)
Definition ql_Date (d : Date) : outcome Date :=
  if year_in_range (year d) then Ok d else Raise RuntimeError.

(** [d + ql.Period('1Y')], refused when the next year is out of range. *)
Definition ql_add_1Y (d : Date) : outcome Date :=
  if year_in_range (year d + 1) then Ok (add_1Y d) else Raise RuntimeError.

(** [dates(t)] with the refusals. *)
Fixpoint dates_ql (t : nat) : outcome Date :=
  match t with
  | O => ql_Date date_init
  | S t' => obind (dates_ql t') ql_add_1Y
  end.

(** The loop of [t_length] with the refusals, entered with the counter at
    [t]: an error of [dates(t)] leaves the loop.  It ends because [dates(t)]
    is refused once its year would pass 2199. *)
Equations? t_length_ql_from (d_end : Date) (t : nat) : outcome nat
  by wf (Z.to_nat (2200 - year date_init) - t)%nat lt :=
  t_length_ql_from d_end t with Logic.inspect (dates_ql t) => {
    | exist _ (Raise e) _ => Raise e;
    | exist _ (Ok d) Hd with date_ltb d d_end => {
        | true => t_length_ql_from d_end (S t);
        | false => Ok t } }.
Proof.
  assert (Hrange : forall u x, dates_ql u = Ok x ->
                     year x = year date_init + Z.of_nat u /\ year x <= 2199).
  { clear. induction u as [|u IH]; intros x; simpl.
    - unfold ql_Date, year_in_range.
      destruct (_ && _) eqn:Hr; [|done]. intros [= <-].
      apply andb_true_iff in Hr as [_ Hr]. apply Z.leb_le in Hr. lia.
    - destruct (dates_ql u) as [y|]; [|done]. simpl.
      destruct (IH y eq_refl) as [Hy _].
      unfold ql_add_1Y, year_in_range.
      destruct (_ && _) eqn:Hr; [|done]. intros [= <-].
      apply andb_true_iff in Hr as [_ Hr]. apply Z.leb_le in Hr.
      unfold add_1Y. destruct (_ && _); cbn [year]; lia. }
  destruct (Hrange t d Hd). lia.
Qed.

(** [t_length()] with the refusals: [date_end] is parsed first. *)
Definition t_length_ql : outcome nat :=
  obind (ql_Date date_end) (fun d_end => t_length_ql_from d_end 0).

(** ** Bucketing *)

(** [result[t] += x] *)
Definition iadd (result : list num) (t : nat) (x : num) : outcome (list num) :=
  match result !! t with
  | Some y => Ok (<[t := add y x]> result)
  | None => Raise IndexError
  end.

(** [leg[i-1].date() <= leg[i].date()], for [i > 0] *)
Definition dates_in_order_at (leg : list CashFlow) (i : nat) (cf : CashFlow) : bool :=
  match i with
  | O => true
  | S j => match leg !! j with
           | Some prev => date_leb (cf_date prev) (cf_date cf)
           | None => true
           end
  end.

(** The [while i < len(leg)] loop of [cashflows] for period [t]; [n] bounds
    the number of iterations and is [len(leg) - i] when the loop is entered.
    It returns the cursor and the buckets. *)
Fixpoint cashflows_while (leg : list CashFlow) (n : nat) (t i : nat)
    (result : list num) : outcome (nat * list num) :=
  match n with
  | O => Ok (i, result)
  | S n' =>
    match leg !! i with
    | None => Ok (i, result)
    | Some cf =>
      if negb (dates_in_order_at leg i cf) then Raise AssertionError
      else if date_leb (dates t) (cf_date cf) && date_ltb (cf_date cf) (dates (t + 1))
      then obind (iadd result t (cf_amount cf))
                 (fun result' => cashflows_while leg n' t (S i) result')
      else if date_leb (dates (t + 1)) (cf_date cf)
      then Ok (i, result)
      else cashflows_while leg n' t (S i) result
    end
  end.

(** The [for t in range(t_length())] loop of [cashflows] over the remaining
    periods [ts]. *)
Fixpoint cashflows_for (leg : list CashFlow) (ts : list nat) (i : nat)
    (result : list num) : outcome (list num) :=
  match ts with
  | [] => Ok result
  | t :: ts' =>
    obind (cashflows_while leg (length leg - i) t i result)
          (fun '(i', result') => cashflows_for leg ts' i' result')
  end.

(** The body of [cashflows] once the leg is known. *)
Definition cashflows_leg (leg : list CashFlow) : outcome (list num) :=
  cashflows_for leg (seq 0 t_length) 0 (replicate t_length (of_int 0)).

(** The same loops in [redemptions], which has no assertion. *)
Fixpoint redemptions_while (leg : list CashFlow) (n : nat) (t i : nat)
    (result : list num) : outcome (nat * list num) :=
  match n with
  | O => Ok (i, result)
  | S n' =>
    match leg !! i with
    | None => Ok (i, result)
    | Some cf =>
      if date_leb (dates t) (cf_date cf) && date_ltb (cf_date cf) (dates (t + 1))
      then obind (iadd result t (cf_amount cf))
                 (fun result' => redemptions_while leg n' t (S i) result')
      else if date_leb (dates (t + 1)) (cf_date cf)
      then Ok (i, result)
      else redemptions_while leg n' t (S i) result
    end
  end.

Fixpoint redemptions_for (leg : list CashFlow) (ts : list nat) (i : nat)
    (result : list num) : outcome (list num) :=
  match ts with
  | [] => Ok result
  | t :: ts' =>
    obind (redemptions_while leg (length leg - i) t i result)
          (fun '(i', result') => redemptions_for leg ts' i' result')
  end.

Definition redemptions_leg (leg : list CashFlow) : outcome (list num) :=
  redemptions_for leg (seq 0 t_length) 0 (replicate t_length (of_int 0)).

(** ** The QuantLib objects of a bond *)

Local Open Scope formula_scope.

(** [riskfree_curve()] *)
Definition riskfree_curve : M YieldTermStructure :=
  put_evaluationDate (dates 0) ;;;
  let spot_dates := dates 0 :: map (fun dur => ql_date_plus (dates 0) dur)
                                   (map fst zero_curve) in
  let spot_rates := of_int 0 :: map snd zero_curve in
  ret (ZeroCurve spot_dates spot_rates
         Actual360 UnitedStates Linear Compounded Annual).

(** [discount_curve(bond_id)] *)
Definition discount_curve (bond_id : Z) : M YieldTermStructure :=
  row <- loc bond_id ;;
  let spread := z_spread row in
  base <- riskfree_curve ;;
  ret (ZeroSpreadedTermStructure base spread Compounded Annual).

(** [schedule(bond_id)] *)
Definition schedule (bond_id : Z) : M Schedule :=
  row <- loc bond_id ;;
  let issue_date := issue_date row in
  row <- loc bond_id ;;
  let maturity_date := maturity_date row in
  row <- loc bond_id ;;
  let tenor := mkPeriod (if String.eqb (tenor row) "6Y" then Semiannual else Annual) in
  ret (mkSchedule issue_date maturity_date tenor
         UnitedStates Unadjusted Unadjusted Backward false).

(** [fixed_rate_bond(bond_id)] *)
Definition fixed_rate_bond (bond_id : Z) : M FixedRateBond :=
  row <- loc bond_id ;;
  let settlement_days := settlement_days row in
  row <- loc bond_id ;;
  let face_value := face_value row in
  row <- loc bond_id ;;
  let coupons := [coupon_rate row] in
  sch <- schedule bond_id ;;
  let bond := mkFixedRateBond settlement_days (of_int face_value) sch coupons
                Actual360 Unadjusted None in
  curve <- discount_curve bond_id ;;
  let bondEngine := DiscountingBondEngine curve in
  ret (setPricingEngine bondEngine bond).

(** ** The formulas over a bond's events *)

(** [cashflows(bond_id)] *)
Definition cashflows (bond_id : Z) : M (list num) :=
  bond <- fixed_rate_bond bond_id ;;
  let leg := ql_cashflows bond in
  lift (cashflows_leg leg).

(** [redemptions(bond_id)] *)
Definition redemptions (bond_id : Z) : M (list num) :=
  bond <- fixed_rate_bond bond_id ;;
  let leg := ql_redemptions bond in
  lift (redemptions_leg leg).

(** [x[t]] *)
Definition item (x : list num) (t : nat) : M num :=
  lift (match x !! t with
        | Some y => Ok y
        | None => Raise IndexError
        end).

(** The [for i in bond_data.index] loop of a total for period [t]:
    [result[t] += per_bond(i)[t]]. *)
Fixpoint total_bonds (per_bond : Z -> M (list num)) (t : nat) (ids : list Z)
    (result : list num) : M (list num) :=
  match ids with
  | [] => ret result
  | i :: ids' =>
    x <- per_bond i ;;
    y <- item x t ;;
    result' <- lift (iadd result t y) ;;
    total_bonds per_bond t ids' result'
  end.

(** The [for t in range(t_length())] loop of a total. *)
Fixpoint total_for (per_bond : Z -> M (list num)) (ts : list nat)
    (result : list num) : M (list num) :=
  match ts with
  | [] => ret result
  | t :: ts' =>
    result' <- total_bonds per_bond t bond_index result ;;
    total_for per_bond ts' result'
  end.

(** [cashflows_total()] *)
Definition cashflows_total : M (list num) :=
  total_for cashflows (seq 0 t_length) (replicate t_length (of_int 0)).

(** [redemptions_total()] *)
Definition redemptions_total : M (list num) :=
  total_for redemptions (seq 0 t_length) (replicate t_length (of_int 0)).

(** [bond.notional()] and [bond.cleanPrice()], read under the current
    settings. *)
Definition notional (b : FixedRateBond) : M num :=
  fun s => (Ok (ql_notional s b), s).

Definition cleanPrice (b : FixedRateBond) : M num :=
  fun s => (Ok (ql_cleanPrice s b), s).

(** [bond(i).notional() * bond(i).cleanPrice() / 100], one element of the
    list that [market_values] builds. *)
Definition market_value (i : Z) : M num :=
  b1 <- fixed_rate_bond i ;;
  n <- notional b1 ;;
  b2 <- fixed_rate_bond i ;;
  p <- cleanPrice b2 ;;
  ret (div (mul n p) (of_int 100)).

Fixpoint market_values_of (ids : list Z) : M (list num) :=
  match ids with
  | [] => ret []
  | i :: ids' =>
    v <- market_value i ;;
    vs <- market_values_of ids' ;;
    ret (v :: vs)
  end.

(** [market_values()] *)
Definition market_values : M (list num) := market_values_of bond_index.

(** [ql.BondFunctions]: the solver that [z_spread_recalc] calls,
    [zSpread(bond, cleanPrice, curve, dayCounter, compounding, frequency)],
    run under the current settings. *)
Class BondFunctions := {
  ql_zSpread : Settings -> FixedRateBond -> num -> YieldTermStructure ->
               DayCounter -> Compounding -> Frequency -> num
}.
Context {bond_functions : BondFunctions}.

(** [z_spread_recalc(bond_id)] *)
Definition z_spread_recalc (bond_id : Z) : M num :=
  b1 <- fixed_rate_bond bond_id ;;
  b2 <- fixed_rate_bond bond_id ;;
  price <- cleanPrice b2 ;;
  curve <- riskfree_curve ;;
  (fun s => (Ok (ql_zSpread s b1 price curve Thirty360 Compounded Annual), s)).


(** ** Specification vocabulary *)

(** The event [cf] lies in period [t]: [dates(t) <= cf.date() < dates(t+1)]. *)
Definition in_bucket (t : nat) (cf : CashFlow) : bool :=
  date_leb (dates t) (cf_date cf) && date_ltb (cf_date cf) (dates (t + 1)).

(** The event lies in the horizon [dates(0) <= cf.date() < dates(t_length())]. *)
Definition in_horizon (cf : CashFlow) : bool :=
  date_leb (dates 0) (cf_date cf) && date_ltb (cf_date cf) (dates t_length).

(** The amounts of the events [l] added to [acc] in the order of the list. *)
Definition sum_from (acc : num) (l : list CashFlow) : num :=
  fold_left (fun a cf => add a (cf_amount cf)) l acc.

Definition sum_amounts (l : list CashFlow) : num := sum_from (of_int 0) l.

(** The sum of the amounts of the events of [leg] that lie in period [t]. *)
Definition bucket_sum (leg : list CashFlow) (t : nat) : num :=
  sum_amounts (List.filter (in_bucket t) leg).

(** Python's [sum(xs)]. *)
Definition sum_list (xs : list num) : num := fold_left add xs (of_int 0).

(** Every event is dated no earlier than the one before it. *)
Fixpoint in_order (leg : list CashFlow) : bool :=
  match leg with
  | a :: tl => match tl with
               | b :: _ => date_leb (cf_date a) (cf_date b) && in_order tl
               | [] => true
               end
  | [] => true
  end.

(** Some event is dated strictly earlier than the one before it. *)
Definition out_of_order (leg : list CashFlow) : Prop :=
  exists i a b, leg !! i = Some a /\ leg !! S i = Some b
                /\ date_ltb (cf_date b) (cf_date a) = true.

(** The event is dated from [lo] on and before [hi]. *)
Definition between (lo hi : Date) (cf : CashFlow) : bool :=
  date_leb lo (cf_date cf) && date_ltb (cf_date cf) hi.

(** The event is dated on or after the valuation date [dates(0)]. *)
Definition from_valuation (cf : CashFlow) : bool :=
  date_leb (dates 0) (cf_date cf).

(** The curve that [riskfree_curve] returns. *)
Definition the_riskfree_curve : YieldTermStructure :=
  ZeroCurve (dates 0 :: map (fun dur => ql_date_plus (dates 0) dur)
                            (map fst zero_curve))
            (of_int 0 :: map snd zero_curve)
            Actual360 UnitedStates Linear Compounded Annual.

(** The schedule that [schedule] returns for a bond with this row. *)
Definition schedule_of_row (row : BondRow) : Schedule :=
  mkSchedule (issue_date row) (maturity_date row)
    (mkPeriod (if String.eqb (tenor row) "6Y" then Semiannual else Annual))
    UnitedStates Unadjusted Unadjusted Backward false.

(** The bond that [fixed_rate_bond] returns for a bond with this row. *)
Definition bond_of_row (row : BondRow) : FixedRateBond :=
  {| settlementDays := settlement_days row;
     faceAmount := of_int (face_value row);
     bond_schedule := schedule_of_row row;
     coupons := [coupon_rate row];
     accrualDayCounter := Actual360;
     paymentConvention := Unadjusted;
     pricingEngine :=
       Some (DiscountingBondEngine
               (ZeroSpreadedTermStructure the_riskfree_curve (z_spread row)
                  Compounded Annual)) |}.

(** The sum over the bonds [ids], in index order, of entry [t] of each
    bond's series. *)
Definition sum_over_bonds (series : Z -> list num) (ids : list Z) (t : nat) : num :=
  fold_left (fun acc i => add acc (nth t (series i) (of_int 0))) ids (of_int 0).

(** A formula leaves the settings as they were or with only the evaluation
    date moved to [dates(0)], whether it returns or raises. *)
Definition touches_only_evaluationDate {A} (m : M A) : Prop :=
  forall s, snd (m s) = s \/ snd (m s) = set_evaluationDate (dates 0) s.

(** What a formula returns or raises does not depend on the settings it is
    run under. *)
Definition settings_blind {A} (m : M A) : Prop :=
  forall s s', fst (m s) = fst (m s').

(** The order of dates as a proposition. *)
Definition date_lt (a b : Date) : Prop :=
  year a < year b
  \/ (year a = year b
      /\ (month a < month b
          \/ (month a = month b /\ dayOfMonth a < dayOfMonth b))).

(** ** The order of dates *)

Lemma date_ltb_true a b : date_ltb a b = true <-> date_lt a b.
Proof.
  unfold date_ltb, date_lt.
  rewrite !orb_true_iff, !andb_true_iff, !orb_true_iff, !andb_true_iff.
  rewrite !Z.ltb_lt, !Z.eqb_eq. tauto.
Qed.

Lemma date_ltb_false a b : date_ltb a b = false <-> ~ date_lt a b.
Proof. rewrite <- date_ltb_true. destruct (date_ltb a b); intuition congruence. Qed.

Lemma date_leb_true a b : date_leb a b = true <-> ~ date_lt b a.
Proof. unfold date_leb. rewrite negb_true_iff. apply date_ltb_false. Qed.

Lemma date_leb_false a b : date_leb a b = false <-> date_lt b a.
Proof. unfold date_leb. rewrite negb_false_iff. apply date_ltb_true. Qed.

(** Turns every comparison of dates in the goal and the context into
    arithmetic on the fields and calls [lia]. *)
Ltac date_order :=
  repeat match goal with
  | H : date_ltb _ _ = true |- _ => apply date_ltb_true in H
  | H : date_ltb _ _ = false |- _ => apply date_ltb_false in H
  | H : date_leb _ _ = true |- _ => apply date_leb_true in H
  | H : date_leb _ _ = false |- _ => apply date_leb_false in H
  | |- date_ltb _ _ = true => apply date_ltb_true
  | |- date_ltb _ _ = false => apply date_ltb_false
  | |- date_leb _ _ = true => apply date_leb_true
  | |- date_leb _ _ = false => apply date_leb_false
  end;
  unfold date_lt in *; lia.

Lemma date_leb_trans a b c :
  date_leb a b = true -> date_leb b c = true -> date_leb a c = true.
Proof. intros. date_order. Qed.

(** ** The axis *)

Lemma year_add_1Y d : year (add_1Y d) = year d + 1.
Proof. unfold add_1Y. by destruct (_ && _). Qed.

Lemma date_ltb_year a b : date_ltb a b = true -> year a <= year b.
Proof.
  unfold date_ltb. intros H.
  destruct (Z.ltb_spec (year a) (year b)); [lia|].
  destruct (Z.eqb_spec (year a) (year b)); [lia|done].
Qed.

Lemma year_dates t : year (dates t) = year date_init + Z.of_nat t.
Proof.
  induction t as [|t IH]; [simpl; lia|].
  cbn [dates]. rewrite year_add_1Y, IH. lia.
Qed.

Lemma dates_lt t u : (t < u)%nat -> date_ltb (dates t) (dates u) = true.
Proof.
  intros H. apply date_ltb_true. left. rewrite !year_dates. lia.
Qed.

Lemma dates_le t u : (t <= u)%nat -> date_leb (dates t) (dates u) = true.
Proof.
  intros H. destruct (decide (t = u)) as [->|Hne]; [date_order|].
  assert (Hlt : date_ltb (dates t) (dates u) = true) by (apply dates_lt; lia).
  date_order.
Qed.

Lemma dates_lt_inv t u : date_ltb (dates t) (dates u) = true -> (t < u)%nat.
Proof.
  intros H. destruct (decide (t < u)%nat) as [|Hge]; [done|].
  assert (Hle : date_leb (dates u) (dates t) = true) by (apply dates_le; lia).
  date_order.
Qed.

(** The loop of [t_length], one iteration unfolded. *)
Lemma t_length_from_step t :
  t_length_from t
  = if date_ltb (dates t) date_end then t_length_from (S t) else t.
Proof.
  funelim (t_length_from t).
  - by rewrite Hlt.
  - by rewrite e.
Qed.

(** The loop returns the first index, from [t] on, whose date is not before
    [date_end]. *)
Lemma t_length_from_first t :
  (t <= t_length_from t)%nat
  /\ date_ltb (dates (t_length_from t)) date_end = false
  /\ forall u, (t <= u < t_length_from t)%nat ->
               date_ltb (dates u) date_end = true.
Proof.
  funelim (t_length_from t).
  - destruct H as (Hle & Hstop & Hbefore).
    split; [lia|]. split; [done|].
    intros u Hu. destruct (decide (u = t)) as [->|Hne]; [done|].
    apply Hbefore. lia.
  - split; [lia|]. split; [done|]. intros u Hu. lia.
Qed.

Lemma t_length_stop : date_leb date_end (dates t_length) = true.
Proof.
  destruct (t_length_from_first 0) as (_ & Hstop & _).
  unfold date_leb, t_length. by rewrite Hstop.
Qed.

Lemma t_length_before u :
  (u < t_length)%nat -> date_ltb (dates u) date_end = true.
Proof.
  intros Hu. destruct (t_length_from_first 0) as (_ & _ & Hbefore).
  apply Hbefore. unfold t_length in Hu. lia.
Qed.

Lemma t_length_least n :
  date_leb date_end (dates n) = true -> (t_length <= n)%nat.
Proof.
  intros Hn. destruct (decide (t_length <= n)%nat) as [|Hlt]; [done|].
  assert (Hb : date_ltb (dates n) date_end = true)
    by (apply t_length_before; lia).
  date_order.
Qed.

Lemma t_length_zero :
  date_leb date_end date_init = true -> t_length = 0%nat.
Proof.
  intros H. assert (Hle : (t_length <= 0)%nat) by (apply t_length_least; done).
  lia.
Qed.

(** ** Legs in date order *)

Lemma in_order_cons a l :
  in_order (a :: l) = true
  <-> Forall (fun b => date_leb (cf_date a) (cf_date b) = true) l
      /\ in_order l = true.
Proof.
  revert a. induction l as [|b l IH]; intros a.
  - simpl. split; [intros _; split; [constructor|done]|done].
  - change (in_order (a :: b :: l))
      with (date_leb (cf_date a) (cf_date b) && in_order (b :: l)).
    rewrite andb_true_iff, Forall_cons. split.
    + intros [Hab Hbl]. split; [|done]. split; [done|].
      apply IH in Hbl as [Hb _].
      eapply Forall_impl; [exact Hb|]. intros c Hbc. simpl in Hbc.
      by apply date_leb_trans with (cf_date b).
    + intros [[Hab _] Hbl]. done.
Qed.

Lemma in_order_drop leg i : in_order leg = true -> in_order (drop i leg) = true.
Proof.
  revert leg. induction i as [|i IH]; intros [|a l] H; try done.
  simpl. apply IH. by apply in_order_cons in H as [_ H].
Qed.

(** The property the assertion of [cashflows] tests. *)
Lemma in_order_adjacent leg i a b :
  in_order leg = true -> leg !! i = Some a -> leg !! S i = Some b ->
  date_leb (cf_date a) (cf_date b) = true.
Proof.
  intros Hs Ha Hb. apply (in_order_drop _ i) in Hs.
  rewrite (drop_S _ _ _ Ha) in Hs. apply in_order_cons in Hs as [Hall _].
  rewrite Forall_forall in Hall. apply Hall.
  apply (list_elem_of_lookup_2 _ 0%nat).
  rewrite lookup_drop. by rewrite Nat.add_0_r.
Qed.

Lemma in_order_drop_head leg i a :
  in_order leg = true -> leg !! i = Some a ->
  Forall (fun b => date_leb (cf_date a) (cf_date b) = true) (drop i leg).
Proof.
  intros Hs Ha. apply (in_order_drop _ i) in Hs.
  rewrite (drop_S _ _ _ Ha) in Hs |- *. apply in_order_cons in Hs as [Hall _].
  apply Forall_cons. split; [date_order|done].
Qed.

Lemma in_order_filter f leg :
  in_order leg = true -> in_order (List.filter f leg) = true.
Proof.
  induction leg as [|a l IH]; [done|]. intros H.
  apply in_order_cons in H as [Hall Hl]. simpl.
  destruct (f a); [|by apply IH]. apply in_order_cons. split; [|by apply IH].
  rewrite Forall_forall in Hall |- *. intros b Hb.
  apply list_elem_of_In, List.filter_In in Hb as [Hb _].
  by apply Hall, list_elem_of_In.
Qed.

Lemma in_order_iff_not_out_of_order leg :
  in_order leg = true <-> ~ out_of_order leg.
Proof.
  split.
  - intros Hs (i & a & b & Ha & Hb & Hlt).
    pose proof (in_order_adjacent _ _ _ _ Hs Ha Hb). date_order.
  - induction leg as [|a l IH]; [done|]. intros Hn.
    destruct l as [|b l]; [done|].
    change (date_leb (cf_date a) (cf_date b) && in_order (b :: l) = true).
    apply andb_true_iff. split.
    + destruct (date_leb (cf_date a) (cf_date b)) eqn:Hab; [done|].
      exfalso. apply Hn. exists 0%nat, a, b. repeat split. date_order.
    + apply IH. intros (i & x & y & Hx & Hy & Hlt).
      apply Hn. by exists (S i), x, y.
Qed.

Lemma filter_none {A} (f : A -> bool) l :
  Forall (fun x => f x = false) l -> List.filter f l = [].
Proof.
  induction 1 as [|x l Hx _ IH]; [done|]. simpl. by rewrite Hx.
Qed.

(** ** The inner loop *)

Lemma iadd_ok result t y x :
  result !! t = Some y -> iadd result t x = Ok (<[t := add y x]> result).
Proof. intros H. unfold iadd. by rewrite H. Qed.

Lemma dates_in_order_at_sorted leg i cf :
  in_order leg = true -> leg !! i = Some cf -> dates_in_order_at leg i cf = true.
Proof.
  intros Hs Hcf. destruct i as [|j]; [done|]. simpl.
  destruct (leg !! j) as [prev|] eqn:Hprev; [|done].
  by eapply in_order_adjacent.
Qed.

(** On a leg in date order the inner loop of [cashflows] for period [t],
    entered at cursor [i], adds to bucket [t] the events of period [t] that
    are left from [i] on; the events it passes all lie before the end of the
    period, and the event it stops at, if any, does not. *)
Lemma cashflows_while_sorted leg :
  in_order leg = true ->
  forall n t i result y,
    (length leg - i <= n)%nat -> result !! t = Some y ->
    exists i',
      cashflows_while leg n t i result
      = Ok (i', <[t := sum_from y (List.filter (in_bucket t) (drop i leg))]> result)
      /\ (i <= i')%nat
      /\ (forall k e, (i <= k < i')%nat -> leg !! k = Some e ->
                      date_ltb (cf_date e) (dates (t + 1)) = true)
      /\ (forall e, leg !! i' = Some e ->
                    date_leb (dates (t + 1)) (cf_date e) = true).
Proof.
  intros Hs. induction n as [|n IH]; intros t i result y Hn Hy.
  - exists i. rewrite drop_ge by lia. simpl.
    rewrite (list_insert_id _ _ _ Hy). split; [done|]. split; [lia|].
    split; [intros; lia|]. intros e He. apply lookup_lt_Some in He. lia.
  - simpl. destruct (leg !! i) as [cf|] eqn:Hcf.
    2:{ exists i. rewrite Hcf. apply lookup_ge_None_1 in Hcf.
        rewrite drop_ge by lia. simpl.
        rewrite (list_insert_id _ _ _ Hy). split; [done|]. split; [lia|].
        split; [intros; lia|done]. }
    rewrite (dates_in_order_at_sorted _ _ _ Hs Hcf). simpl.
    rewrite (drop_S _ _ _ Hcf). simpl. fold (in_bucket t cf).
    assert (Hlen : (length leg - S i <= n)%nat) by lia.
    destruct (in_bucket t cf) eqn:Hin.
    + rewrite (iadd_ok _ _ _ _ Hy). simpl.
      assert (Hy' : <[t := add y (cf_amount cf)]> result !! t
                    = Some (add y (cf_amount cf))).
      { apply list_lookup_insert_eq. by eapply lookup_lt_Some. }
      destruct (IH t (S i) _ _ Hlen Hy') as (i' & Hrun & Hle & Hbefore & Hstop).
      exists i'. rewrite Hrun, list_insert_insert_eq.
      split; [done|]. split; [lia|]. split; [|done]. intros k e Hk He.
      destruct (decide (k = i)) as [->|Hne]; [|apply (Hbefore k e); [lia|done]].
      rewrite Hcf in He. injection He as <-.
      unfold in_bucket in Hin. apply andb_true_iff in Hin. tauto.
    + destruct (date_leb (dates (t + 1)) (cf_date cf)) eqn:Hbreak.
      * exists i. rewrite filter_none.
        { simpl. rewrite (list_insert_id _ _ _ Hy).
          split; [done|]. split; [lia|]. split; [intros; lia|].
          intros e He. rewrite Hcf in He. by injection He as <-. }
        pose proof (in_order_drop_head _ _ _ Hs Hcf) as Hall.
        rewrite (drop_S _ _ _ Hcf) in Hall. apply Forall_cons in Hall as [_ Hall].
        eapply Forall_impl; [exact Hall|]. intros e He. simpl in He.
        unfold in_bucket. apply andb_false_iff. right. date_order.
      * destruct (IH t (S i) _ _ Hlen Hy) as (i' & Hrun & Hle & Hbefore & Hstop).
        exists i'. split; [done|]. split; [lia|]. split; [|done]. intros k e Hk He.
        destruct (decide (k = i)) as [->|Hne]; [|apply (Hbefore k e); [lia|done]].
        rewrite Hcf in He. injection He as <-. date_order.
Qed.

(** Whatever the leg, a pass of the inner loop that returns keeps the number
    of buckets. *)
Lemma cashflows_while_length leg n t i result i' result' :
  cashflows_while leg n t i result = Ok (i', result') ->
  length result' = length result.
Proof.
  revert i result. induction n as [|n IH]; intros i result; simpl.
  - by intros [= _ <-].
  - destruct (leg !! i) as [cf|]; [|by intros [= _ <-]].
    destruct (negb _); [done|].
    destruct (_ && _).
    + unfold iadd. destruct (result !! t); [|done]. simpl.
      intros H. apply IH in H. by rewrite length_insert in H.
    + destruct (date_leb _ _); [by intros [= _ <-]|]. apply IH.
Qed.

(** [redemptions] runs the same loop without the assertion: where the loop
    of [cashflows] returns, that of [redemptions] returns the same. *)
Lemma redemptions_while_cashflows leg n t i result x :
  cashflows_while leg n t i result = Ok x ->
  redemptions_while leg n t i result = Ok x.
Proof.
  revert i result. induction n as [|n IH]; intros i result; simpl; [done|].
  destruct (leg !! i) as [cf|]; [|done].
  destruct (negb _); [done|].
  destruct (_ && _).
  - destruct (iadd result t (cf_amount cf)); [|done]. simpl. apply IH.
  - destruct (date_leb _ _); [done|]. apply IH.
Qed.

Lemma redemptions_for_cashflows leg ts i result r :
  cashflows_for leg ts i result = Ok r ->
  redemptions_for leg ts i result = Ok r.
Proof.
  revert i result. induction ts as [|t ts IH]; intros i result; simpl; [done|].
  destruct (cashflows_while leg (length leg - i) t i result) as [[i' r']|] eqn:Hw;
    [|done].
  rewrite (redemptions_while_cashflows _ _ _ _ _ _ Hw). simpl. apply IH.
Qed.

(** Whatever the leg, the loop of [redemptions] returns, with as many
    buckets as it was given. *)
Lemma redemptions_while_total leg n t i result :
  (t < length result)%nat ->
  exists i' result', redemptions_while leg n t i result = Ok (i', result')
                     /\ length result' = length result.
Proof.
  revert i result. induction n as [|n IH]; intros i result Ht; simpl.
  - by exists i, result.
  - destruct (leg !! i) as [cf|]; [|by exists i, result].
    destruct (_ && _).
    + destruct (lookup_lt_is_Some_2 result t Ht) as [y Hy].
      rewrite (iadd_ok _ _ _ _ Hy). simpl.
      destruct (IH (S i) (<[t := add y (cf_amount cf)]> result)) as (i' & r' & Hr & Hl).
      { by rewrite length_insert. }
      exists i', r'. split; [done|]. by rewrite Hl, length_insert.
    + destruct (date_leb _ _); [by exists i, result|]. by apply IH.
Qed.

Lemma redemptions_for_total leg ts i result :
  Forall (fun t => (t < length result)%nat) ts ->
  exists r, redemptions_for leg ts i result = Ok r /\ length r = length result.
Proof.
  revert i result. induction ts as [|t ts IH]; intros i result Hts; simpl.
  - by exists result.
  - apply Forall_cons in Hts as [Ht Hts].
    destruct (redemptions_while_total leg (length leg - i) t i result Ht)
      as (i' & r' & Hr & Hl).
    rewrite Hr. simpl. destruct (IH i' r') as (r & Hfor & Hlen).
    { by rewrite Hl. }
    exists r. split; [done|]. by rewrite Hlen.
Qed.

(** The bound on the iterations is never what stops the loop: any bound of
    at least [len(leg) - i] gives the same run. *)
Lemma cashflows_while_bound leg n m t i result :
  (length leg - i <= n)%nat -> (length leg - i <= m)%nat ->
  cashflows_while leg n t i result = cashflows_while leg m t i result.
Proof.
  revert m i result. induction n as [|n IH]; intros [|m] i result Hn Hm; simpl.
  - done.
  - by rewrite lookup_ge_None_2 by lia.
  - by rewrite lookup_ge_None_2 by lia.
  - destruct (leg !! i) as [cf|]; [|done].
    destruct (negb _); [done|].
    destruct (_ && _).
    + destruct (iadd result t (cf_amount cf)); [|done]. simpl. apply IH; lia.
    + destruct (date_leb _ _); [done|]. apply IH; lia.
Qed.

Lemma redemptions_while_bound leg n m t i result :
  (length leg - i <= n)%nat -> (length leg - i <= m)%nat ->
  redemptions_while leg n t i result = redemptions_while leg m t i result.
Proof.
  revert m i result. induction n as [|n IH]; intros [|m] i result Hn Hm; simpl.
  - done.
  - by rewrite lookup_ge_None_2 by lia.
  - by rewrite lookup_ge_None_2 by lia.
  - destruct (leg !! i) as [cf|]; [|done].
    destruct (_ && _).
    + destruct (iadd result t (cf_amount cf)); [|done]. simpl. apply IH; lia.
    + destruct (date_leb _ _); [done|]. apply IH; lia.
Qed.

(** ** The outer loop *)

(** Events that the cursor has left behind at the start of period [t] do not
    belong to period [t]. *)
Lemma bucket_of_suffix leg t i :
  (forall k e, (k < i)%nat -> leg !! k = Some e ->
               date_ltb (cf_date e) (dates t) = true) ->
  List.filter (in_bucket t) (drop i leg) = List.filter (in_bucket t) leg.
Proof.
  intros Hpast. rewrite <- (take_drop i leg) at 2.
  rewrite List.filter_app, (filter_none _ (take i leg)); [done|].
  apply Forall_lookup. intros k e He.
  destruct (decide (k < i)%nat) as [Hk|Hk].
  - rewrite lookup_take_lt in He by done.
    pose proof (Hpast k e Hk He) as Hlt.
    unfold in_bucket. apply andb_false_iff. left. date_order.
  - rewrite lookup_take_ge in He by lia. done.
Qed.

Lemma cashflows_for_sorted leg :
  in_order leg = true ->
  forall m t i result,
    (forall k e, (k < i)%nat -> leg !! k = Some e ->
                 date_ltb (cf_date e) (dates t) = true) ->
    (forall u, (t <= u < t + m)%nat -> result !! u = Some (of_int 0)) ->
    exists r,
      cashflows_for leg (seq t m) i result = Ok r
      /\ length r = length result
      /\ (forall u, (u < t)%nat -> r !! u = result !! u)
      /\ (forall u, (t <= u < t + m)%nat -> r !! u = Some (bucket_sum leg u)).
Proof.
  intros Hs. induction m as [|m IH]; intros t i result Hpast Hzero.
  - exists result. simpl. split; [done|]. split; [done|]. split; [done|].
    intros; lia.
  - cbn [seq cashflows_for].
    assert (Hy : result !! t = Some (of_int 0)) by (apply Hzero; lia).
    destruct (cashflows_while_sorted leg Hs (length leg - i) t i result _
                ltac:(lia) Hy) as (i' & Hrun & Hle & Hbefore & _).
    rewrite Hrun. cbn [obind].
    rewrite (bucket_of_suffix _ _ _ Hpast). fold (sum_amounts (List.filter (in_bucket t) leg)).
    fold (bucket_sum leg t).
    destruct (IH (S t) i' (<[t := bucket_sum leg t]> result)) as (r & Hfor & Hlen & Hlow & Hnew).
    { intros k e Hk He. destruct (decide (k < i)%nat) as [Hki|Hki].
      - pose proof (Hpast k e Hki He).
        pose proof (dates_le t (S t) ltac:(lia)). date_order.
      - rewrite <- Nat.add_1_r. apply (Hbefore k e); [lia|done]. }
    { intros u Hu. rewrite list_lookup_insert_ne by lia. apply Hzero. lia. }
    exists r. split; [done|]. rewrite Hlen, length_insert. split; [done|]. split.
    + intros u Hu. rewrite Hlow by lia. apply list_lookup_insert_ne. lia.
    + intros u Hu. destruct (decide (u = t)) as [->|Hne]; [|apply Hnew; lia].
      rewrite Hlow by lia. apply list_lookup_insert_eq.
      by eapply lookup_lt_Some.
Qed.

(** On a leg in date order the loops of [cashflows] return, bucket by
    bucket, the sum of the events of the period. *)
Lemma cashflows_leg_sorted leg :
  in_order leg = true ->
  cashflows_leg leg = Ok (bucket_sum leg <$> seq 0 t_length).
Proof.
  intros Hs. unfold cashflows_leg.
  destruct (cashflows_for_sorted leg Hs t_length 0 0 (replicate t_length (of_int 0)))
    as (r & Hfor & Hlen & _ & Hnew).
  { intros; lia. }
  { intros u Hu. apply lookup_replicate_2. lia. }
  rewrite Hfor. f_equal. rewrite length_replicate in Hlen.
  apply list_eq. intros u. destruct (decide (u < t_length)%nat) as [Hu|Hu].
  - rewrite Hnew by lia. rewrite list_lookup_fmap, lookup_seq_lt by done. done.
  - rewrite !lookup_ge_None_2; [done| |lia].
    rewrite length_fmap, length_seq. lia.
Qed.

Lemma redemptions_leg_sorted leg :
  in_order leg = true ->
  redemptions_leg leg = Ok (bucket_sum leg <$> seq 0 t_length).
Proof.
  intros Hs. apply redemptions_for_cashflows. by apply cashflows_leg_sorted.
Qed.

Lemma buckets_lookup leg t :
  (t < t_length)%nat ->
  (bucket_sum leg <$> seq 0 t_length) !! t = Some (bucket_sum leg t).
Proof. intros Ht. by rewrite list_lookup_fmap, lookup_seq_lt. Qed.

Lemma cashflows_for_length leg ts i result r :
  cashflows_for leg ts i result = Ok r -> length r = length result.
Proof.
  revert i result. induction ts as [|t ts IH]; intros i result; simpl.
  - by intros [= <-].
  - destruct (cashflows_while _ _ _ _ _) as [[i' r']|] eqn:Hw; [|done]. simpl.
    intros H. apply IH in H. apply cashflows_while_length in Hw. congruence.
Qed.

Lemma cashflows_leg_length leg r :
  cashflows_leg leg = Ok r -> length r = t_length.
Proof.
  intros H. apply cashflows_for_length in H. by rewrite length_replicate in H.
Qed.

Lemma redemptions_leg_total leg :
  exists r, redemptions_leg leg = Ok r /\ length r = t_length.
Proof.
  destruct (redemptions_for_total leg (seq 0 t_length) 0
              (replicate t_length (of_int 0))) as (r & Hr & Hl).
  { apply Forall_forall. intros t Ht. rewrite length_replicate.
    apply elem_of_seq in Ht. lia. }
  exists r. split; [done|]. by rewrite Hl, length_replicate.
Qed.

(** ** Running the formulas *)

Lemma set_evaluationDate_twice d s :
  set_evaluationDate d (set_evaluationDate d s) = set_evaluationDate d s.
Proof. reflexivity. Qed.

Lemma assoc_index rows i : i ∈ map fst rows -> is_Some (assoc rows i).
Proof.
  induction rows as [|[k row] rows IH]; simpl.
  - intros H. by apply elem_of_nil in H.
  - intros H. destruct (Z.eqb_spec k i) as [->|Hne]; [by eexists|].
    apply elem_of_cons in H as [->|H]; [done|]. by apply IH.
Qed.

Lemma riskfree_curve_run s :
  riskfree_curve s = (Ok the_riskfree_curve, set_evaluationDate (dates 0) s).
Proof. reflexivity. Qed.

Lemma schedule_run i row s :
  assoc bond_data i = Some row -> schedule i s = (Ok (schedule_of_row row), s).
Proof.
  intros H. unfold schedule, loc, bind, lift, ret. by rewrite H.
Qed.

Lemma fixed_rate_bond_run i row s :
  assoc bond_data i = Some row ->
  fixed_rate_bond i s = (Ok (bond_of_row row), set_evaluationDate (dates 0) s).
Proof.
  intros H.
  unfold fixed_rate_bond, schedule, discount_curve, riskfree_curve,
    put_evaluationDate, loc, bind, lift, ret.
  by rewrite H.
Qed.

Lemma fixed_rate_bond_missing i s :
  assoc bond_data i = None -> fixed_rate_bond i s = (Raise KeyError, s).
Proof.
  intros H. unfold fixed_rate_bond, loc, bind, lift. by rewrite H.
Qed.

Lemma fixed_rate_bond_inv i s bond s' :
  fixed_rate_bond i s = (Ok bond, s') ->
  exists row, assoc bond_data i = Some row /\ bond = bond_of_row row
              /\ s' = set_evaluationDate (dates 0) s.
Proof.
  destruct (assoc bond_data i) as [row|] eqn:Hrow.
  - rewrite (fixed_rate_bond_run _ _ _ Hrow). intros [= <- <-]. by exists row.
  - by rewrite (fixed_rate_bond_missing _ _ Hrow).
Qed.

Lemma cashflows_run i row s :
  assoc bond_data i = Some row ->
  cashflows i s = (cashflows_leg (ql_cashflows (bond_of_row row)),
                   set_evaluationDate (dates 0) s).
Proof.
  intros H. unfold cashflows, bind. by rewrite (fixed_rate_bond_run _ _ _ H).
Qed.

Lemma redemptions_run i row s :
  assoc bond_data i = Some row ->
  redemptions i s = (redemptions_leg (ql_redemptions (bond_of_row row)),
                     set_evaluationDate (dates 0) s).
Proof.
  intros H. unfold redemptions, bind. by rewrite (fixed_rate_bond_run _ _ _ H).
Qed.

(** [redemptions] returns for every bond of the table, whatever the order
    of the events of its leg. *)
Lemma redemptions_returns i row s :
  assoc bond_data i = Some row ->
  exists r, redemptions i s = (Ok r, set_evaluationDate (dates 0) s)
            /\ length r = t_length.
Proof.
  intros H. rewrite (redemptions_run _ _ _ H).
  destruct (redemptions_leg_total (ql_redemptions (bond_of_row row)))
    as (r & Hr & Hl).
  exists r. by rewrite Hr.
Qed.

Lemma market_value_run i row s :
  assoc bond_data i = Some row ->
  let s1 := set_evaluationDate (dates 0) s in
  market_value i s
  = (Ok (div (mul (ql_notional s1 (bond_of_row row))
                  (ql_cleanPrice s1 (bond_of_row row)))
             (of_int 100)), s1).
Proof.
  intros H. unfold market_value, notional, cleanPrice, bind, ret.
  rewrite (fixed_rate_bond_run _ _ _ H), (fixed_rate_bond_run _ _ _ H).
  by rewrite set_evaluationDate_twice.
Qed.

(** ** The loops of the totals *)

Section Totals.

Variable per_bond : Z -> M (list num).
Variable series : Z -> list num.
Hypothesis per_bond_returns :
  forall i, i ∈ bond_index -> forall s0, exists s1, per_bond i s0 = (Ok (series i), s1).
Hypothesis series_length :
  forall i, i ∈ bond_index -> length (series i) = t_length.

Lemma nth_lookup (xs : list num) t y d : xs !! t = Some y -> nth t xs d = y.
Proof.
  revert t. induction xs as [|x xs IH]; intros [|t]; simpl; try done.
  - by intros [= ->].
  - apply IH.
Qed.

Lemma total_bonds_sum t js result y s :
  (forall i, i ∈ js -> i ∈ bond_index) ->
  (t < t_length)%nat -> result !! t = Some y ->
  exists s',
    total_bonds per_bond t js result s
    = (Ok (<[t := fold_left (fun acc i => add acc (nth t (series i) (of_int 0)))
                            js y]> result), s').
Proof.
  revert result y s. induction js as [|i js IH]; intros result y s Hsub Ht Hy.
  - exists s. simpl. by rewrite (list_insert_id _ _ _ Hy).
  - cbn [total_bonds fold_left]. unfold bind at 1.
    assert (Hi : i ∈ bond_index) by (apply Hsub; left).
    destruct (per_bond_returns i Hi s) as [s1 ->].
    destruct (lookup_lt_is_Some_2 (series i) t) as [x Hx].
    { rewrite series_length by done. lia. }
    unfold bind at 1, item, lift at 1. rewrite Hx.
    unfold bind at 1, lift at 1. rewrite (iadd_ok _ _ _ _ Hy).
    rewrite (nth_lookup _ _ _ _ Hx).
    destruct (IH (<[t := add y x]> result) (add y x) s1) as [s' ->].
    { intros j Hj. apply Hsub. by right. }
    { done. }
    { apply list_lookup_insert_eq. by eapply lookup_lt_Some. }
    exists s'. by rewrite list_insert_insert_eq.
Qed.

Lemma total_for_sum m t result s :
  (t + m <= t_length)%nat ->
  (forall u, (t <= u < t + m)%nat -> result !! u = Some (of_int 0)) ->
  exists r s',
    total_for per_bond (seq t m) result s = (Ok r, s')
    /\ length r = length result
    /\ (forall u, (u < t)%nat -> r !! u = result !! u)
    /\ (forall u, (t <= u < t + m)%nat ->
                  r !! u = Some (sum_over_bonds series bond_index u)).
Proof.
  revert t result s. induction m as [|m IH]; intros t result s Hm Hzero.
  - exists result, s. simpl. split; [done|]. split; [done|]. split; [done|].
    intros; lia.
  - cbn [seq total_for]. unfold bind at 1.
    assert (Hy : result !! t = Some (of_int 0)) by (apply Hzero; lia).
    destruct (total_bonds_sum t bond_index result _ s ltac:(done) ltac:(lia) Hy)
      as [s1 ->].
    fold (sum_over_bonds series bond_index t).
    destruct (IH (S t) (<[t := sum_over_bonds series bond_index t]> result) s1)
      as (r & s' & Hrun & Hlen & Hlow & Hnew).
    { lia. }
    { intros u Hu. rewrite list_lookup_insert_ne by lia. apply Hzero. lia. }
    exists r, s'. split; [done|]. rewrite Hlen, length_insert. split; [done|].
    split.
    + intros u Hu. rewrite Hlow by lia. apply list_lookup_insert_ne. lia.
    + intros u Hu. destruct (decide (u = t)) as [->|Hne]; [|apply Hnew; lia].
      rewrite Hlow by lia. apply list_lookup_insert_eq.
      by eapply lookup_lt_Some.
Qed.

Lemma total_sum s :
  exists r s',
    total_for per_bond (seq 0 t_length) (replicate t_length (of_int 0)) s
    = (Ok r, s')
    /\ length r = t_length
    /\ forall t, (t < t_length)%nat -> r !! t = Some (sum_over_bonds series bond_index t).
Proof.
  destruct (total_for_sum t_length 0 (replicate t_length (of_int 0)) s)
    as (r & s' & Hrun & Hlen & _ & Hnew).
  { lia. }
  { intros u Hu. apply lookup_replicate_2. lia. }
  exists r, s'. split; [done|]. rewrite length_replicate in Hlen.
  split; [done|]. intros t Ht. apply Hnew. lia.
Qed.

End Totals.

(** ** The claims about the axis *)

(** On the axis without the limit of the library: when [date_end] is after
    [date_init], [t_length()] is at least 1, the axis reaches [date_end] at
    index [t_length()] and is still before it at index [t_length() - 1], and
    no other index has these two properties. *)
Lemma t_length_unique_bracket :
  date_ltb date_init date_end = true ->
  dates 0 = date_init
  /\ (forall t, dates (S t) = add_1Y (dates t))
  /\ (1 <= t_length)%nat
  /\ date_leb date_end (dates t_length) = true
  /\ date_ltb (dates (t_length - 1)) date_end = true
  /\ forall n, date_leb date_end (dates n) = true ->
               date_ltb (dates (n - 1)) date_end = true ->
               n = t_length.
Proof.
  intros Hcfg. split; [done|]. split; [done|].
  assert (Hpos : (1 <= t_length)%nat).
  { destruct t_length eqn:HN; [|lia].
    pose proof t_length_stop as Hstop. rewrite HN in Hstop. simpl in Hstop.
    date_order. }
  split; [done|]. split; [apply t_length_stop|].
  split; [apply t_length_before; lia|].
  intros n Hreach Hbefore.
  pose proof (t_length_least n Hreach) as Hle.
  destruct (decide (n = t_length)) as [|Hne]; [done|].
  pose proof (dates_le t_length (n - 1) ltac:(lia)) as Hmono.
  pose proof t_length_stop as Hstop. date_order.
Qed.

Lemma year_in_range_true y : year_in_range y = true <-> 1901 <= y <= 2199.
Proof. unfold year_in_range. rewrite andb_true_iff, !Z.leb_le. done. Qed.

(** Where the library gives a date, it is the date of the axis. *)
Lemma dates_ql_inv t d :
  dates_ql t = Ok d ->
  d = dates t /\ 1901 <= year date_init
  /\ year date_init + Z.of_nat t <= 2199.
Proof.
  revert d. induction t as [|t IH]; intros d; simpl.
  - unfold ql_Date. destruct (year_in_range _) eqn:Hr; [|done].
    intros [= <-]. apply year_in_range_true in Hr. split; [done|lia].
  - destruct (dates_ql t) as [x|]; [|done]. simpl.
    destruct (IH x eq_refl) as (-> & Hlo & _).
    unfold ql_add_1Y. destruct (year_in_range _) eqn:Hr; [|done].
    intros [= <-]. apply year_in_range_true in Hr.
    rewrite year_dates in Hr. split; [done|]. lia.
Qed.

Lemma dates_ql_ok t :
  1901 <= year date_init -> year date_init + Z.of_nat t <= 2199 ->
  dates_ql t = Ok (dates t).
Proof.
  intros Hlo. induction t as [|t IH]; intros Hhi; simpl.
  - unfold ql_Date. by rewrite (proj2 (year_in_range_true _)) by lia.
  - rewrite IH by lia. simpl. unfold ql_add_1Y.
    rewrite (proj2 (year_in_range_true _)); [done|].
    rewrite year_dates. lia.
Qed.

Lemma dates_ql_raises t e : dates_ql t = Raise e -> e = RuntimeError.
Proof.
  revert e. induction t as [|t IH]; intros e; simpl.
  - unfold ql_Date. destruct (year_in_range _); [done|]. by intros [= <-].
  - destruct (dates_ql t) as [x|e'] eqn:Hx; simpl.
    + unfold ql_add_1Y. destruct (year_in_range _); [done|]. by intros [= <-].
    + intros [= <-]. by apply IH.
Qed.

(** The loop with the refusals, one iteration unfolded. *)
Lemma t_length_ql_from_step d_end t :
  t_length_ql_from d_end t
  = match dates_ql t with
    | Ok d => if date_ltb d d_end then t_length_ql_from d_end (S t) else Ok t
    | Raise e => Raise e
    end.
Proof.
  funelim (t_length_ql_from d_end t);
    repeat match goal with
    | H : dates_ql _ = _ |- _ => rewrite H
    | H : date_ltb _ _ = _ |- _ => rewrite H
    end; reflexivity.
Qed.

(** The loop with the refusals returns what the loop without them returns
    when the axis up to that index is inside the range, and raises when it
    is not. *)
Lemma t_length_ql_from_run k t :
  1901 <= year date_init -> (t + k = t_length)%nat ->
  t_length_ql_from date_end t
  = if year date_init + Z.of_nat t_length <=? 2199
    then Ok t_length else Raise RuntimeError.
Proof.
  intros Hlo. revert t. induction k as [|k IH]; intros t Ht;
    rewrite t_length_ql_from_step.
  - rewrite Nat.add_0_r in Ht. subst t.
    destruct (Z.leb_spec (year date_init + Z.of_nat t_length) 2199) as [Hhi|Hhi].
    + rewrite (dates_ql_ok _ Hlo Hhi).
      pose proof t_length_stop as Hstop. unfold date_leb in Hstop.
      apply negb_true_iff in Hstop. by rewrite Hstop.
    + destruct (dates_ql t_length) as [d|e] eqn:Hd.
      * apply dates_ql_inv in Hd. lia.
      * by rewrite (dates_ql_raises _ _ Hd).
  - destruct (dates_ql t) as [d|e] eqn:Hd.
    + destruct (dates_ql_inv _ _ Hd) as (-> & _ & _).
      rewrite (t_length_before t) by lia. apply IH. lia.
    + rewrite (dates_ql_raises _ _ Hd).
      destruct (Z.leb_spec (year date_init + Z.of_nat t_length) 2199)
        as [Hhi|Hhi]; [|done].
      rewrite dates_ql_ok in Hd by lia. done.
Qed.

(** C2, as the code has it.  Let [date_init] and [date_end] be dates of the
    library (years 1901 to 2199) with [date_end] after [date_init], and let
    [z] be the point of the axis in the year 2199, the last one the library
    can build.  When [z] reaches [date_end], which it does whenever the year
    of [date_end] is at most 2198, [t_length()] returns an [N], at least 1,
    such that [dates(N)] reaches [date_end] and [dates(N-1)] is before it,
    and no other index has these two properties.  When [z] is before
    [date_end], [t_length()] raises the error of the library instead.  The
    axis starts at [date_init] and advances by one year per index. *)
Theorem t_length_ql_unique_bracket :
  date_ltb date_init date_end = true ->
  year_in_range (year date_init) = true ->
  year_in_range (year date_end) = true ->
  dates_ql 0 = Ok date_init
  /\ (forall t, dates_ql (S t) = obind (dates_ql t) ql_add_1Y)
  /\ exists z,
       dates_ql (Z.to_nat (2199 - year date_init)) = Ok z
       /\ (year date_end <= 2198 -> date_leb date_end z = true)
       /\ (date_ltb z date_end = true -> t_length_ql = Raise RuntimeError)
       /\ (date_leb date_end z = true ->
           exists N a b,
             t_length_ql = Ok N /\ (1 <= N)%nat
             /\ dates_ql N = Ok a /\ date_leb date_end a = true
             /\ dates_ql (N - 1) = Ok b /\ date_ltb b date_end = true
             /\ forall n a' b',
                  dates_ql n = Ok a' -> date_leb date_end a' = true ->
                  dates_ql (n - 1) = Ok b' -> date_ltb b' date_end = true ->
                  n = N).
Proof.
  intros Hcfg Hinit Hend.
  pose proof (proj1 (year_in_range_true _) Hinit) as [Hlo Hhi].
  pose proof (proj1 (year_in_range_true _) Hend) as [Hlo' Hhi'].
  split; [unfold dates_ql, ql_Date; by rewrite Hinit|]. split; [done|].
  set (last := Z.to_nat (2199 - year date_init)).
  assert (Hlast : dates_ql last = Ok (dates last))
    by (apply dates_ql_ok; unfold last; lia).
  assert (Hrun : t_length_ql
                 = if year date_init + Z.of_nat t_length <=? 2199
                   then Ok t_length else Raise RuntimeError).
  { unfold t_length_ql, ql_Date. rewrite Hend. simpl.
    apply (t_length_ql_from_run t_length); [done|lia]. }
  destruct (t_length_unique_bracket Hcfg)
    as (_ & _ & Hpos & Hreach & Hbefore & Hunique).
  exists (dates last). split; [done|]. split; [|split].
  - intros Hy. apply date_leb_true. unfold date_lt.
    pose proof (year_dates last). unfold last in *. lia.
  - intros Hz. rewrite Hrun.
    destruct (Z.leb_spec (year date_init + Z.of_nat t_length) 2199) as [Hin|];
      [|done].
    pose proof (dates_le t_length last ltac:(unfold last; lia)). date_order.
  - intros Hz. pose proof (t_length_least last Hz) as Hle.
    assert (Hin : year date_init + Z.of_nat t_length <= 2199)
      by (unfold last in Hle; lia).
    exists t_length, (dates t_length), (dates (t_length - 1)).
    rewrite Hrun, (proj2 (Z.leb_le _ _) Hin).
    split; [done|]. split; [done|].
    split; [by apply dates_ql_ok|]. split; [done|].
    split; [apply dates_ql_ok; [done|lia]|]. split; [done|].
    intros n a' b' Ha Hra Hb Hbb.
    destruct (dates_ql_inv _ _ Ha) as (-> & _). destruct (dates_ql_inv _ _ Hb) as (-> & _).
    by apply Hunique.
Qed.

(** C5, as the code has it.  When [date_end] is before [date_init] nothing
    fails and nothing loops: the first test of the loop of [t_length] is
    false, [t_length()] is 0, the loops of [cashflows] and [redemptions]
    return the empty list on every leg, and both totals return the empty
    list with the settings untouched. *)
Theorem t_length_end_before_start :
  date_ltb date_end date_init = true ->
  date_ltb (dates 0) date_end = false
  /\ t_length = 0%nat
  /\ (forall leg, cashflows_leg leg = Ok [] /\ redemptions_leg leg = Ok [])
  /\ forall s, cashflows_total s = (Ok [], s)
               /\ redemptions_total s = (Ok [], s).
Proof.
  intros Hcfg.
  assert (Hzero : t_length = 0%nat) by (apply t_length_zero; date_order).
  split; [simpl; date_order|]. split; [done|].
  unfold cashflows_leg, redemptions_leg, cashflows_total, redemptions_total.
  rewrite Hzero. done.
Qed.

(** ** The claims about bucketing *)

(** C1.  For a bond of the table whose cashflow and redemption events are in
    date order, [cashflows] and [redemptions] return lists of length
    [t_length()] whose entry [t] is the sum of the amounts of exactly the
    events with [dates(t) <= date < dates(t+1)]; an event dated [dates(t+1)]
    belongs to period [t+1] and not to period [t]. *)
Theorem cashflows_redemptions_bucketed bond_id s bond s' :
  fixed_rate_bond bond_id s = (Ok bond, s') ->
  in_order (ql_cashflows bond) = true ->
  in_order (ql_redemptions bond) = true ->
  exists cf rd,
    cashflows bond_id s = (Ok cf, s')
    /\ redemptions bond_id s = (Ok rd, s')
    /\ length cf = t_length /\ length rd = t_length
    /\ (forall t, (t < t_length)%nat ->
          cf !! t = Some (sum_amounts (List.filter (in_bucket t) (ql_cashflows bond)))
          /\ rd !! t = Some (sum_amounts (List.filter (in_bucket t) (ql_redemptions bond))))
    /\ (forall t e, cf_date e = dates (t + 1) ->
          in_bucket (t + 1) e = true /\ in_bucket t e = false).
Proof.
  intros Hbond Hcf Hrd.
  exists (bucket_sum (ql_cashflows bond) <$> seq 0 t_length),
         (bucket_sum (ql_redemptions bond) <$> seq 0 t_length).
  unfold cashflows, redemptions, bind, lift. rewrite Hbond.
  rewrite (cashflows_leg_sorted _ Hcf), (redemptions_leg_sorted _ Hrd).
  split; [done|]. split; [done|].
  rewrite !length_fmap, !length_seq. split; [done|]. split; [done|]. split.
  - intros t Ht. by rewrite !buckets_lookup.
  - intros t e He. unfold in_bucket. rewrite He.
    pose proof (dates_lt (t + 1) (t + 1 + 1) ltac:(lia)) as Hnext.
    split.
    + apply andb_true_iff. split; [date_order|done].
    + apply andb_false_iff. right. date_order.
Qed.

(** C10.  For a bond of the table whose events are in date order, the events
    dated before [dates(0)] belong to no period; [cashflows] and
    [redemptions] return, and what they return is what the same loops return
    on the leg with those events removed; when there is a period at all, the
    first pass of the inner loop leaves the cursor behind every such event. *)
Theorem events_before_valuation_dropped bond_id s bond s' :
  fixed_rate_bond bond_id s = (Ok bond, s') ->
  in_order (ql_cashflows bond) = true ->
  in_order (ql_redemptions bond) = true ->
  (forall e t, date_ltb (cf_date e) (dates 0) = true -> in_bucket t e = false)
  /\ (exists cf rd,
        cashflows bond_id s = (Ok cf, s')
        /\ redemptions bond_id s = (Ok rd, s')
        /\ cashflows_leg (List.filter from_valuation (ql_cashflows bond)) = Ok cf
        /\ redemptions_leg (List.filter from_valuation (ql_redemptions bond)) = Ok rd)
  /\ ((0 < t_length)%nat ->
      exists i result,
        cashflows_while (ql_cashflows bond) (length (ql_cashflows bond) - 0) 0 0
          (replicate t_length (of_int 0)) = Ok (i, result)
        /\ forall k e, ql_cashflows bond !! k = Some e ->
                       date_ltb (cf_date e) (dates 0) = true -> (k < i)%nat).
Proof.
  intros Hbond Hcf Hrd.
  assert (Hout : forall e t, date_ltb (cf_date e) (dates 0) = true ->
                             in_bucket t e = false).
  { intros e t He. unfold in_bucket. apply andb_false_iff. left.
    pose proof (dates_le 0 t ltac:(lia)). date_order. }
  assert (Hsame : forall leg,
            bucket_sum (List.filter from_valuation leg) <$> seq 0 t_length
            = bucket_sum leg <$> seq 0 t_length).
  { intros leg. apply list_fmap_ext. intros _ t _. unfold bucket_sum. f_equal.
    induction leg as [|e leg IH]; [done|]. simpl.
    destruct (from_valuation e) eqn:Hfrom; simpl; [by rewrite IH|].
    rewrite IH, Hout; [done|]. unfold from_valuation in Hfrom. date_order. }
  split; [done|]. split.
  - exists (bucket_sum (ql_cashflows bond) <$> seq 0 t_length),
           (bucket_sum (ql_redemptions bond) <$> seq 0 t_length).
    unfold cashflows, redemptions, bind, lift. rewrite Hbond.
    rewrite (cashflows_leg_sorted _ Hcf), (redemptions_leg_sorted _ Hrd).
    rewrite (cashflows_leg_sorted _ (in_order_filter _ _ Hcf)).
    rewrite (redemptions_leg_sorted _ (in_order_filter _ _ Hrd)).
    by rewrite !Hsame.
  - intros Hpos.
    destruct (cashflows_while_sorted _ Hcf (length (ql_cashflows bond) - 0) 0 0
                (replicate t_length (of_int 0)) (of_int 0) ltac:(lia))
      as (i & Hrun & _ & _ & Hstop).
    { by apply lookup_replicate_2. }
    eexists i, _. split; [exact Hrun|]. intros k e Hk He.
    destruct (decide (k < i)%nat) as [|Hge]; [done|]. exfalso.
    destruct (lookup_lt_is_Some_2 (ql_cashflows bond) i) as [x Hx].
    { apply lookup_lt_Some in Hk. lia. }
    pose proof (Hstop x Hx) as Hxd.
    assert (Hxe : date_leb (cf_date x) (cf_date e) = true).
    { pose proof (in_order_drop_head _ _ _ Hcf Hx) as Hall.
      rewrite Forall_forall in Hall. apply Hall.
      apply (list_elem_of_lookup_2 _ (k - i)%nat). rewrite lookup_drop.
      by replace (i + (k - i))%nat with k by lia. }
    pose proof (dates_le 0 (0 + 1) ltac:(lia)). date_order.
Qed.

(** ** The total over the horizon *)

Lemma between_true lo hi e :
  between lo hi e = true <-> ~ date_lt (cf_date e) lo /\ date_lt (cf_date e) hi.
Proof.
  unfold between. by rewrite andb_true_iff, date_leb_true, date_ltb_true.
Qed.

Lemma between_false lo hi e :
  between lo hi e = false <-> date_lt (cf_date e) lo \/ ~ date_lt (cf_date e) hi.
Proof.
  unfold between. by rewrite andb_false_iff, date_leb_false, date_ltb_false.
Qed.

(** A leg in date order splits at any date into the events before it
    followed by the events from it on. *)
Lemma filter_between_split leg lo mid hi :
  in_order leg = true ->
  date_leb lo mid = true -> date_leb mid hi = true ->
  List.filter (between lo hi) leg
  = List.filter (between lo mid) leg ++ List.filter (between mid hi) leg.
Proof.
  intros Hs Hlo Hhi. induction leg as [|a l IH]; [done|].
  apply in_order_cons in Hs as [Hall Hl]. specialize (IH Hl). simpl.
  destruct (between lo hi a) eqn:H1, (between lo mid a) eqn:H2,
    (between mid hi a) eqn:H3;
    rewrite ?between_true, ?between_false in H1;
    rewrite ?between_true, ?between_false in H2;
    rewrite ?between_true, ?between_false in H3;
    try (exfalso; date_order).
  - simpl. by rewrite IH.
  - rewrite IH. rewrite (filter_none (between lo mid) l); [done|].
    eapply Forall_impl; [exact Hall|]. intros b Hb. simpl in Hb.
    apply between_false. right. date_order.
  - done.
Qed.

(** On a leg in date order the events of the periods [0 .. n-1], one
    period after the other, are the events dated from [dates(0)] on and
    before [dates(n)], each once and in the order of the leg. *)
Lemma concat_buckets leg n :
  in_order leg = true ->
  concat ((fun t => List.filter (in_bucket t) leg) <$> seq 0 n)
  = List.filter (between (dates 0) (dates n)) leg.
Proof.
  intros Hs. induction n as [|n IH].
  - simpl. rewrite filter_none; [done|].
    apply Forall_forall. intros e _. apply between_false.
    destruct (date_leb date_init (cf_date e)) eqn:H; [right|left]; date_order.
  - rewrite seq_S, fmap_app, concat_app, IH.
    cbn [fmap list_fmap concat]. rewrite app_nil_r, Nat.add_0_l.
    rewrite (filter_between_split leg (dates 0) (dates n) (dates (S n)) Hs).
    + unfold in_bucket, between. by rewrite Nat.add_1_r.
    + apply dates_le. lia.
    + apply dates_le. lia.
Qed.

Lemma fold_left_fmap {A B C} (f : A -> B -> A) (g : C -> B) (l : list C) a :
  fold_left f (g <$> l) a = fold_left (fun acc x => f acc (g x)) l a.
Proof. revert a. induction l as [|x l IH]; intros a; simpl; [done|apply IH]. Qed.

Section Exact.

(** The laws of exact addition; the sum of a list does not depend on how it
    is split only when they hold. *)
Hypothesis add_assoc : forall x y z, add x (add y z) = add (add x y) z.
Hypothesis add_0_l : forall x, add (of_int 0) x = x.
Hypothesis add_0_r : forall x, add x (of_int 0) = x.

Lemma sum_from_amounts acc l : sum_from acc l = add acc (sum_amounts l).
Proof.
  unfold sum_amounts. revert acc.
  induction l as [|x l IH]; intros acc; simpl; [by rewrite add_0_r|].
  rewrite (IH (add acc _)), (IH (add (of_int 0) _)), add_0_l.
  by rewrite add_assoc.
Qed.

Lemma sum_amounts_app l1 l2 :
  sum_amounts (l1 ++ l2) = add (sum_amounts l1) (sum_amounts l2).
Proof.
  unfold sum_amounts at 1, sum_from. rewrite fold_left_app.
  apply sum_from_amounts.
Qed.

Lemma sum_buckets leg n :
  in_order leg = true ->
  sum_list (bucket_sum leg <$> seq 0 n)
  = sum_amounts (List.filter (between (dates 0) (dates n)) leg).
Proof.
  intros Hs. induction n as [|n IH].
  - simpl. unfold sum_list. simpl. rewrite filter_none; [done|].
    apply Forall_forall. intros e _. unfold between.
    apply andb_false_iff.
    destruct (date_leb date_init (cf_date e)) eqn:H; [right|by left].
    date_order.
  - rewrite seq_S, fmap_app. unfold sum_list in *. rewrite fold_left_app, IH.
    rewrite (filter_between_split leg (dates 0) (dates n) (dates (S n)) Hs).
    + rewrite sum_amounts_app. cbn [fmap list_fmap fold_left].
      rewrite Nat.add_0_l. unfold bucket_sum, in_bucket, between.
      by rewrite Nat.add_1_r.
    + apply dates_le. lia.
    + apply dates_le. lia.
Qed.

End Exact.

(** C3, as the code has it.  For a bond of the table whose cashflow events
    are in date order, [cashflows] returns; each bucket is the sum of the
    events of its period and the sum of the buckets is the sum of those
    period sums; the events of the periods, one period after the other, are
    exactly the events with [dates(0) <= date < dates(t_length())], each
    once and in the order of the leg; the events dated [dates(t_length())]
    or later are not among them, and no error is raised for them.  The sum
    of the buckets is the sum of the amounts of these events taken in one
    run when addition is exact (associative, with 0 neutral); floating-point
    addition is not, and then the two sums differ by rounding. *)
Theorem cashflows_sum_by_buckets bond_id s bond s' :
  fixed_rate_bond bond_id s = (Ok bond, s') ->
  in_order (ql_cashflows bond) = true ->
  exists cf,
    cashflows bond_id s = (Ok cf, s')
    /\ cf = (fun t => sum_amounts (List.filter (in_bucket t) (ql_cashflows bond)))
            <$> seq 0 t_length
    /\ sum_list cf
       = fold_left
           (fun acc t =>
              add acc (sum_amounts (List.filter (in_bucket t) (ql_cashflows bond))))
           (seq 0 t_length) (of_int 0)
    /\ concat ((fun t => List.filter (in_bucket t) (ql_cashflows bond))
               <$> seq 0 t_length)
       = List.filter in_horizon (ql_cashflows bond)
    /\ (forall e, date_leb (dates t_length) (cf_date e) = true ->
                  in_horizon e = false)
    /\ ((forall x y z, add x (add y z) = add (add x y) z) ->
        (forall x, add (of_int 0) x = x) ->
        (forall x, add x (of_int 0) = x) ->
        sum_list cf
        = sum_amounts (List.filter in_horizon (ql_cashflows bond))).
Proof.
  intros Hbond Hcf.
  exists (bucket_sum (ql_cashflows bond) <$> seq 0 t_length).
  unfold cashflows, bind, lift. rewrite Hbond, (cashflows_leg_sorted _ Hcf).
  split; [done|]. split; [done|].
  split; [unfold sum_list; apply fold_left_fmap|].
  split; [by apply concat_buckets|]. split.
  - intros e He. unfold in_horizon. apply andb_false_iff. right. date_order.
  - intros Hassoc H0l H0r. by apply sum_buckets.
Qed.

(** ** The portfolio totals *)

(** C4.  When [cashflows] and [redemptions] return for every bond of the
    index, [cashflows_total] and [redemptions_total] return lists of length
    [t_length()] whose entry [t] is the sum, over the bonds in index order,
    of entry [t] of the bond's cashflow series, respectively of its
    redemption series. *)
Theorem totals_sum_over_bonds (cf rd : Z -> list num) s :
  (forall i, i ∈ bond_index ->
     forall s0, exists s1, cashflows i s0 = (Ok (cf i), s1)) ->
  (forall i, i ∈ bond_index ->
     forall s0, exists s1, redemptions i s0 = (Ok (rd i), s1)) ->
  exists tc tr s1 s2,
    cashflows_total s = (Ok tc, s1)
    /\ redemptions_total s = (Ok tr, s2)
    /\ length tc = t_length /\ length tr = t_length
    /\ forall t, (t < t_length)%nat ->
         tc !! t = Some (fold_left (fun acc i => add acc (nth t (cf i) (of_int 0)))
                                   bond_index (of_int 0))
         /\ tr !! t = Some (fold_left (fun acc i => add acc (nth t (rd i) (of_int 0)))
                                      bond_index (of_int 0)).
Proof.
  intros Hcf Hrd.
  assert (Hcflen : forall i, i ∈ bond_index -> length (cf i) = t_length).
  { intros i Hi. destruct (Hcf i Hi s) as [s1 Hrun].
    destruct (assoc_index _ _ Hi) as [row Hrow].
    rewrite (cashflows_run _ _ _ Hrow) in Hrun. injection Hrun as Hrun _.
    exact (cashflows_leg_length _ _ Hrun). }
  assert (Hrdlen : forall i, i ∈ bond_index -> length (rd i) = t_length).
  { intros i Hi. destruct (Hrd i Hi s) as [s1 Hrun].
    destruct (assoc_index _ _ Hi) as [row Hrow].
    rewrite (redemptions_run _ _ _ Hrow) in Hrun. injection Hrun as Hrun _.
    destruct (redemptions_leg_total (ql_redemptions (bond_of_row row)))
      as (r & Hr & Hl). congruence. }
  destruct (total_sum cashflows cf Hcf Hcflen s) as (tc & s1 & Hc & Hlc & Hsc).
  destruct (total_sum redemptions rd Hrd Hrdlen s) as (tr & s2 & Hr & Hlr & Hsr).
  exists tc, tr, s1, s2. unfold cashflows_total, redemptions_total.
  split; [done|]. split; [done|]. split; [done|]. split; [done|].
  intros t Ht. split; [by apply Hsc|by apply Hsr].
Qed.

(** ** The claims about the QuantLib objects *)

(** C7.  For a bond of the table, [schedule] returns a schedule from the
    issue date to the maturity date whose tenor is semiannual exactly when
    the tenor label of the bond is the string 6Y, and annual for every other
    label, 6M included; it is the schedule of the bond that
    [fixed_rate_bond] builds. *)
Theorem schedule_semiannual_iff_6Y bond_id row s :
  assoc bond_data bond_id = Some row ->
  exists sch,
    schedule bond_id s = (Ok sch, s)
    /\ effectiveDate sch = issue_date row
    /\ terminationDate sch = maturity_date row
    /\ (frequency (sch_tenor sch) = Semiannual <-> tenor row = "6Y"%string)
    /\ (tenor row <> "6Y"%string -> frequency (sch_tenor sch) = Annual)
    /\ (tenor row = "6M"%string -> frequency (sch_tenor sch) = Annual)
    /\ exists bond s', fixed_rate_bond bond_id s = (Ok bond, s')
                       /\ bond_schedule bond = sch.
Proof.
  intros Hrow. exists (schedule_of_row row).
  split; [by apply schedule_run|]. split; [done|]. split; [done|].
  simpl. destruct (String.eqb_spec (tenor row) "6Y") as [Heq|Hne].
  - split; [done|]. split; [done|]. split; [by rewrite Heq|].
    eexists _, _. split; [by apply fixed_rate_bond_run|done].
  - split; [split; [done|by intros ?]|]. split; [done|]. split; [done|].
    eexists _, _. split; [by apply fixed_rate_bond_run|done].
Qed.

(** C8, as the code has it.  [riskfree_curve] returns its curve and leaves the
    evaluation date of the settings at [dates(0)], whatever it was before;
    the other settings are unchanged, and a second call returns the same
    curve and leaves the same settings. *)
Theorem riskfree_curve_leaves_evaluation_date s :
  exists curve s',
    riskfree_curve s = (Ok curve, s')
    /\ evaluationDate s' = dates 0
    /\ includeReferenceDateEvents s' = includeReferenceDateEvents s
    /\ includeTodaysCashFlows s' = includeTodaysCashFlows s
    /\ enforcesTodaysHistoricFixings s' = enforcesTodaysHistoricFixings s
    /\ riskfree_curve s' = (Ok curve, s').
Proof.
  exists the_riskfree_curve, (set_evaluationDate (dates 0) s).
  rewrite !riskfree_curve_run. by rewrite set_evaluationDate_twice.
Qed.

Lemma market_values_of_run ids s :
  (forall i, i ∈ ids -> is_Some (assoc bond_data i)) ->
  let s1 := set_evaluationDate (dates 0) s in
  exists vs,
    market_values_of ids s = (Ok vs, match ids with [] => s | _ => s1 end)
    /\ length vs = length ids
    /\ forall k i, ids !! k = Some i ->
         exists row, assoc bond_data i = Some row
           /\ vs !! k = Some (div (mul (ql_notional s1 (bond_of_row row))
                                       (ql_cleanPrice s1 (bond_of_row row)))
                                  (of_int 100)).
Proof.
  revert s. induction ids as [|i ids IH]; intros s Hin s1.
  - exists []. done.
  - destruct (Hin i ltac:(left)) as [row Hrow].
    destruct (IH s1) as (vs & Hrun & Hlen & Hvs).
    { intros j Hj. apply Hin. by right. }
    eexists (_ :: vs). cbn [market_values_of]. unfold bind at 1.
    rewrite (market_value_run _ _ _ Hrow). unfold bind at 1. fold s1.
    rewrite Hrun. unfold ret. split.
    + f_equal. destruct ids; [done|]. apply set_evaluationDate_twice.
    + split; [simpl; by rewrite Hlen|].
      intros [|k] j Hj.
      * injection Hj as <-. by exists row.
      * simpl in Hj. destruct (Hvs k j Hj) as (row' & Hrow' & Hk).
        exists row'. split; [done|]. exact Hk.
Qed.

(** C9.  [market_values] returns one value per bond of the index.  For a
    bond of the index, with [row] its row, the bond that [fixed_rate_bond]
    builds is the bond of that row, whose pricing engine discounts on the
    risk-free curve shifted by the z-spread of the row; the value of the
    bond is the notional of that bond times the clean price of that bond
    divided by 100, both read under the settings at entry or under these
    with the evaluation date at [dates(0)]. *)
Theorem market_values_notional_times_price s :
  exists vs s',
    market_values s = (Ok vs, s')
    /\ length vs = length bond_index
    /\ forall k i, bond_index !! k = Some i ->
         exists row rf sn sp,
           assoc bond_data i = Some row
           /\ fst (fixed_rate_bond i s) = Ok (bond_of_row row)
           /\ fst (riskfree_curve s) = Ok rf
           /\ faceAmount (bond_of_row row) = of_int (face_value row)
           /\ coupons (bond_of_row row) = [coupon_rate row]
           /\ pricingEngine (bond_of_row row)
              = Some (DiscountingBondEngine
                        (ZeroSpreadedTermStructure rf (z_spread row)
                           Compounded Annual))
           /\ (sn = s \/ sn = set_evaluationDate (dates 0) s)
           /\ (sp = s \/ sp = set_evaluationDate (dates 0) s)
           /\ vs !! k
              = Some (div (mul (ql_notional sn (bond_of_row row))
                               (ql_cleanPrice sp (bond_of_row row)))
                          (of_int 100)).
Proof.
  destruct (market_values_of_run bond_index s) as (vs & Hrun & Hlen & Hvs).
  { intros i Hi. by apply assoc_index. }
  eexists vs, _. split; [exact Hrun|]. split; [done|].
  intros k i Hk. destruct (Hvs k i Hk) as (row & Hrow & Hv).
  exists row, the_riskfree_curve,
    (set_evaluationDate (dates 0) s), (set_evaluationDate (dates 0) s).
  split; [done|]. split; [by rewrite (fixed_rate_bond_run _ _ _ Hrow)|].
  split; [by rewrite riskfree_curve_run|].
  split; [done|]. split; [done|]. split; [done|].
  split; [by right|]. split; [by right|]. exact Hv.
Qed.

(** * Further properties of the formulas *)

(** ** Bond ids that are not in the table *)

(** X1.  For a bond id that has no row in [bond_data], every formula that
    takes a bond id raises [KeyError], and raises it before anything is
    written to the settings. *)
Theorem missing_bond_raises_KeyError bond_id s :
  assoc bond_data bond_id = None ->
  schedule bond_id s = (Raise KeyError, s)
  /\ discount_curve bond_id s = (Raise KeyError, s)
  /\ fixed_rate_bond bond_id s = (Raise KeyError, s)
  /\ cashflows bond_id s = (Raise KeyError, s)
  /\ redemptions bond_id s = (Raise KeyError, s)
  /\ z_spread_recalc bond_id s = (Raise KeyError, s).
Proof.
  intros H.
  unfold z_spread_recalc, cashflows, redemptions, bind.
  rewrite (fixed_rate_bond_missing _ _ H).
  unfold schedule, discount_curve, loc, bind, lift. by rewrite H.
Qed.

(** ** The bucketing loops on any leg *)

Lemma in_order_false leg : in_order leg = false -> out_of_order leg.
Proof.
  induction leg as [|a l IH]; [done|]. destruct l as [|b l]; [done|].
  change (in_order (a :: b :: l))
    with (date_leb (cf_date a) (cf_date b) && in_order (b :: l)).
  intros H. apply andb_false_iff in H as [H|H].
  - exists 0%nat, a, b. split; [done|]. split; [done|]. date_order.
  - destruct (IH H) as (i & x & y & Hx & Hy & Hlt). by exists (S i), x, y.
Qed.

(** With the bucket in range, a pass of the inner loop of [cashflows] raises
    nothing but the assertion error. *)
Lemma cashflows_while_raises leg n t i result e :
  (t < length result)%nat ->
  cashflows_while leg n t i result = Raise e -> e = AssertionError.
Proof.
  revert i result. induction n as [|n IH]; intros i result Ht; simpl; [done|].
  destruct (leg !! i) as [cf|]; [|done].
  destruct (negb _); [by intros [= <-]|].
  destruct (_ && _).
  - destruct (lookup_lt_is_Some_2 result t Ht) as [y Hy].
    rewrite (iadd_ok _ _ _ _ Hy). simpl. apply IH. by rewrite length_insert.
  - destruct (date_leb _ _); [done|]. by apply IH.
Qed.

Lemma cashflows_for_raises leg ts i result e :
  Forall (fun t => (t < length result)%nat) ts ->
  cashflows_for leg ts i result = Raise e -> e = AssertionError.
Proof.
  revert i result. induction ts as [|t ts IH]; intros i result Hts; simpl; [done|].
  apply Forall_cons in Hts as [Ht Hts].
  destruct (cashflows_while leg (length leg - i) t i result)
    as [[i' r']|e'] eqn:Hw; simpl.
  - apply IH. by rewrite (cashflows_while_length _ _ _ _ _ _ _ Hw).
  - intros [= <-]. by eapply cashflows_while_raises.
Qed.

(** X2.  Whatever the events of the leg and their order, the loops never
    index a bucket out of range: [redemptions] returns a list of
    [t_length()] buckets, and [cashflows] either returns that same list or
    raises its assertion error. *)
Theorem bucketing_raises_only_assertion leg :
  exists r,
    redemptions_leg leg = Ok r
    /\ length r = t_length
    /\ (cashflows_leg leg = Ok r \/ cashflows_leg leg = Raise AssertionError).
Proof.
  destruct (redemptions_leg_total leg) as (r & Hr & Hl).
  exists r. split; [done|]. split; [done|].
  destruct (cashflows_leg leg) as [r'|e] eqn:Hc.
  - left. apply redemptions_for_cashflows in Hc.
    unfold redemptions_leg in Hr. congruence.
  - right. f_equal. eapply cashflows_for_raises; [|exact Hc].
    apply Forall_forall. intros t Ht. rewrite length_replicate.
    apply elem_of_seq in Ht. lia.
Qed.

(** X3.  The assertion of [cashflows] gives no false alarm: when [cashflows]
    raises [AssertionError] for a bond, the bond is in the table and its
    leg has an event dated strictly before the event that precedes it. *)
Theorem cashflows_assertion_sound bond_id s s' :
  cashflows bond_id s = (Raise AssertionError, s') ->
  exists row, assoc bond_data bond_id = Some row
              /\ out_of_order (ql_cashflows (bond_of_row row)).
Proof.
  destruct (assoc bond_data bond_id) as [row|] eqn:Hrow.
  - rewrite (cashflows_run _ _ _ Hrow). intros [= Hraise _].
    exists row. split; [done|]. apply in_order_false.
    destruct (in_order (ql_cashflows (bond_of_row row))) eqn:Hs; [|done].
    by rewrite (cashflows_leg_sorted _ Hs) in Hraise.
  - unfold cashflows, bind. by rewrite (fixed_rate_bond_missing _ _ Hrow).
Qed.

(** The inner loop of [cashflows] on a leg whose events [j] and [j+1] are
    out of order, entered no further than [j+1]: it raises, or it breaks at
    an event no further than [j]. *)
Lemma cashflows_while_disorder leg j a b :
  leg !! j = Some a -> leg !! S j = Some b ->
  date_ltb (cf_date b) (cf_date a) = true ->
  forall n t i result,
    (i <= S j)%nat -> (length leg - i <= n)%nat -> (t < length result)%nat ->
    cashflows_while leg n t i result = Raise AssertionError
    \/ exists i' r' e,
         cashflows_while leg n t i result = Ok (i', r')
         /\ (i' <= j)%nat /\ length r' = length result
         /\ leg !! i' = Some e
         /\ date_leb (dates (t + 1)) (cf_date e) = true.
Proof.
  intros Ha Hb Hlt. pose proof (lookup_lt_Some _ _ _ Hb) as Hlen.
  induction n as [|n IH]; intros t i result Hi Hn Ht; [lia|].
  simpl. destruct (lookup_lt_is_Some_2 leg i ltac:(lia)) as [cf Hcf].
  rewrite Hcf.
  destruct (decide (i = S j)) as [->|Hne].
  { left. simpl. rewrite Ha. rewrite Hb in Hcf. injection Hcf as <-.
    replace (date_leb (cf_date a) (cf_date b)) with false; [done|].
    symmetry. date_order. }
  destruct (negb _); [by left|].
  destruct (_ && _).
  - destruct (lookup_lt_is_Some_2 result t Ht) as [y Hy].
    rewrite (iadd_ok _ _ _ _ Hy). simpl.
    destruct (IH t (S i) (<[t := add y (cf_amount cf)]> result))
      as [Hraise|(i' & r' & e & Hrun & Hi' & Hl & He & Hd)];
      [lia|lia|by rewrite length_insert|by left|].
    right. exists i', r', e. rewrite length_insert in Hl. done.
  - destruct (date_leb (dates (t + 1)) (cf_date cf)) eqn:Hbreak.
    + right. exists i, result, cf. repeat split; [lia|done..].
    + apply IH; [lia|lia|done].
Qed.

Lemma cashflows_for_disorder leg j a b :
  leg !! j = Some a -> leg !! S j = Some b ->
  date_ltb (cf_date b) (cf_date a) = true ->
  (forall k e, (k <= j)%nat -> leg !! k = Some e ->
               date_ltb (cf_date e) (dates t_length) = true) ->
  forall m t i result,
    (t + S m = t_length)%nat -> (i <= S j)%nat -> length result = t_length ->
    cashflows_for leg (seq t (S m)) i result = Raise AssertionError.
Proof.
  intros Ha Hb Hlt Hin. induction m as [|m IH]; intros t i result Htm Hi Hl.
  - cbn [seq cashflows_for].
    destruct (cashflows_while_disorder leg j a b Ha Hb Hlt
                (length leg - i) t i result Hi ltac:(lia) ltac:(lia))
      as [->|(i' & r' & e & Hrun & Hi' & _ & He & Hd)]; [done|].
    exfalso. pose proof (Hin i' e Hi' He) as Hbefore.
    replace (t + 1)%nat with t_length in Hd by lia. date_order.
  - cbn [seq cashflows_for].
    destruct (cashflows_while_disorder leg j a b Ha Hb Hlt
                (length leg - i) t i result Hi ltac:(lia) ltac:(lia))
      as [->|(i' & r' & e & -> & Hi' & Hl' & _ & _)]; [done|].
    cbn [obind]. apply (IH (S t) i' r'); [lia|lia|congruence].
Qed.

(** X4.  The assertion of [cashflows] is sure to fire on a disorder that
    the cursor can reach: when the projection has at least one period, an
    event of the leg is dated strictly before the event that precedes it,
    and every event up to that preceding one is dated before
    [dates(t_length())], [cashflows] raises [AssertionError]. *)
Theorem cashflows_detects_reachable_disorder bond_id s bond s' j a b :
  fixed_rate_bond bond_id s = (Ok bond, s') ->
  (0 < t_length)%nat ->
  ql_cashflows bond !! j = Some a ->
  ql_cashflows bond !! S j = Some b ->
  date_ltb (cf_date b) (cf_date a) = true ->
  (forall k e, (k <= j)%nat -> ql_cashflows bond !! k = Some e ->
               date_ltb (cf_date e) (dates t_length) = true) ->
  cashflows bond_id s = (Raise AssertionError, s').
Proof.
  intros Hbond Hpos Ha Hb Hlt Hin. unfold cashflows, bind, lift.
  rewrite Hbond. f_equal. unfold cashflows_leg.
  assert (Hseq : seq 0 t_length = seq 0 (S (t_length - 1))) by (f_equal; lia).
  rewrite Hseq.
  apply (cashflows_for_disorder _ j a b Ha Hb Hlt Hin); [lia|lia|].
  apply length_replicate.
Qed.


(** ** The length of the projection *)

(** X5.  [t_length()] is 0 exactly when [date_end] is not after
    [date_init]; otherwise it is the difference of the two years or one
    more. *)
Theorem t_length_year_bounds :
  (t_length = 0%nat <-> date_leb date_end date_init = true)
  /\ Z.max 0 (year date_end - year date_init) <= Z.of_nat t_length
  /\ Z.of_nat t_length <= Z.max 0 (year date_end - year date_init + 1).
Proof.
  pose proof t_length_stop as Hstop. pose proof (year_dates t_length) as Hyear.
  split; [|split].
  - split; [|apply t_length_zero].
    intros Hzero. rewrite Hzero in Hstop. exact Hstop.
  - destruct (decide (Z.max 0 (year date_end - year date_init)
                      <= Z.of_nat t_length)) as [|Hlow]; [done|].
    exfalso. date_order.
  - set (n := Z.to_nat (Z.max 0 (year date_end - year date_init + 1))).
    assert (Hn : (t_length <= n)%nat).
    { apply t_length_least. pose proof (year_dates n) as Hyn.
      apply date_leb_true. unfold date_lt. lia. }
    lia.
Qed.

(** ** The dates of the axis *)

Lemma date_eta d : d = mkDate (year d) (month d) (dayOfMonth d).
Proof. by destruct d. Qed.

Lemma isLeap_next y : isLeap y = true -> isLeap (y + 1) = false.
Proof.
  unfold isLeap. intros H. apply andb_true_iff in H as [H _].
  apply Z.eqb_eq in H. apply andb_false_iff. left. apply Z.eqb_neq.
  Z.div_mod_to_equations. lia.
Qed.

(** X6.  The axis keeps the day and the month of [date_init], one year
    apart; but from a [date_init] on the 29th of February of a leap year
    every later point of the axis is a 28th of February, in leap years
    too, because each point is the one before plus a year. *)
Theorem dates_anniversary :
  (~ (month date_init = 2 /\ dayOfMonth date_init = 29) ->
   forall t, dates t = mkDate (year date_init + Z.of_nat t)
                              (month date_init) (dayOfMonth date_init))
  /\ (month date_init = 2 -> dayOfMonth date_init = 29 ->
      isLeap (year date_init) = true ->
      forall t, dates (S t) = mkDate (year date_init + Z.of_nat (S t)) 2 28).
Proof.
  split.
  - intros Hday t. induction t as [|t IH].
    + simpl. rewrite (date_eta date_init) at 1. f_equal. lia.
    + cbn [dates]. rewrite IH. unfold add_1Y. cbn [year month dayOfMonth].
      destruct (Z.eqb_spec (dayOfMonth date_init) 29) as [Hd|Hd];
        destruct (Z.eqb_spec (month date_init) 2) as [Hm|Hm];
        try tauto; simpl; f_equal; lia.
  - intros Hm Hd Hleap t. induction t as [|t IH].
    + cbn [dates]. unfold add_1Y. rewrite Hm, Hd, (isLeap_next _ Hleap).
      simpl. f_equal.
    + cbn [dates] in *. rewrite IH. unfold add_1Y. cbn [year month dayOfMonth].
      simpl. f_equal. lia.
Qed.

(** ** Periods and horizon *)

Lemma in_bucket_in_horizon t e :
  (t < t_length)%nat -> in_bucket t e = true -> in_horizon e = true.
Proof.
  intros Ht H. unfold in_bucket in H. apply andb_true_iff in H as [Hlo Hhi].
  pose proof (dates_le 0 t ltac:(lia)).
  pose proof (dates_le (t + 1) t_length ltac:(lia)).
  unfold in_horizon. apply andb_true_iff. split; date_order.
Qed.

Lemma in_range_in_bucket e n :
  date_leb (dates 0) (cf_date e) = true ->
  date_ltb (cf_date e) (dates n) = true ->
  exists t, (t < n)%nat /\ in_bucket t e = true.
Proof.
  intros Hlo. induction n as [|n IH]; intros Hhi; [date_order|].
  destruct (date_ltb (cf_date e) (dates n)) eqn:Hn.
  - destruct (IH eq_refl) as (t & Ht & Hin). exists t. split; [lia|done].
  - exists n. split; [lia|]. unfold in_bucket. rewrite Nat.add_1_r, Hhi.
    apply andb_true_iff. split; [date_order|done].
Qed.

(** X7.  The periods partition the horizon: an event lies in at most one
    period, it lies in some period of the projection exactly when it is
    dated from [dates(0)] on and before [dates(t_length())], and every event
    dated from [date_init] on and before [date_end] is among them. *)
Theorem buckets_partition_horizon e :
  (forall t u, in_bucket t e = true -> in_bucket u e = true -> t = u)
  /\ (in_horizon e = true
      <-> exists t, (t < t_length)%nat /\ in_bucket t e = true)
  /\ (date_leb date_init (cf_date e) = true ->
      date_ltb (cf_date e) date_end = true -> in_horizon e = true).
Proof.
  split; [|split].
  - assert (Hlt : forall t u, (t < u)%nat -> in_bucket t e = true ->
                              in_bucket u e = true -> False).
    { intros t u Htu Ht Hu. unfold in_bucket in Ht, Hu.
      apply andb_true_iff in Ht as [_ Ht]. apply andb_true_iff in Hu as [Hu _].
      pose proof (dates_le (t + 1) u ltac:(lia)). date_order. }
    intros t u Ht Hu.
    destruct (Nat.lt_trichotomy t u) as [H|[H|H]]; [|done|];
      exfalso; eauto.
  - split.
    + intros H. unfold in_horizon in H. apply andb_true_iff in H as [Hlo Hhi].
      by apply in_range_in_bucket.
    + intros (t & Ht & Hin). by eapply in_bucket_in_horizon.
  - intros Hlo Hhi. pose proof t_length_stop.
    unfold in_horizon. apply andb_true_iff. simpl. split; date_order.
Qed.

(** ** Legs with nothing in the horizon *)

Lemma redemptions_while_nothing leg n t i result :
  (forall e, e ∈ leg -> in_bucket t e = false) ->
  exists i', redemptions_while leg n t i result = Ok (i', result).
Proof.
  intros Hout. revert i. induction n as [|n IH]; intros i; simpl.
  - by exists i.
  - destruct (leg !! i) as [cf|] eqn:Hcf; [|by exists i].
    fold (in_bucket t cf).
    rewrite (Hout cf (list_elem_of_lookup_2 _ _ _ Hcf)).
    destruct (date_leb _ _); [by exists i|]. apply IH.
Qed.

Lemma redemptions_for_nothing leg ts i result :
  (forall t e, t ∈ ts -> e ∈ leg -> in_bucket t e = false) ->
  redemptions_for leg ts i result = Ok result.
Proof.
  revert i. induction ts as [|t ts IH]; intros i Hout; simpl; [done|].
  destruct (redemptions_while_nothing leg (length leg - i) t i result)
    as [i' ->].
  { intros e He. apply Hout; [left|done]. }
  simpl. apply IH. intros u e Hu He. apply Hout; [by right|done].
Qed.

(** X8.  A leg with no event in the horizon, the empty leg among them,
    gives buckets that are all the integer 0: [redemptions] returns them
    whatever the order of the events, and [cashflows] returns them unless
    its assertion fires. *)
Theorem nothing_in_horizon_all_zero leg :
  (forall e, e ∈ leg -> in_horizon e = false) ->
  redemptions_leg leg = Ok (replicate t_length (of_int 0))
  /\ (cashflows_leg leg = Ok (replicate t_length (of_int 0))
      \/ cashflows_leg leg = Raise AssertionError).
Proof.
  intros Hout.
  assert (Hr : redemptions_leg leg = Ok (replicate t_length (of_int 0))).
  { apply redemptions_for_nothing. intros t e Ht He.
    apply elem_of_seq in Ht.
    destruct (in_bucket t e) eqn:Hin; [|done].
    pose proof (Hout e He) as Hf.
    by rewrite (in_bucket_in_horizon t e ltac:(lia) Hin) in Hf. }
  split; [done|].
  destruct (cashflows_leg leg) as [r|e] eqn:Hc.
  - left. apply redemptions_for_cashflows in Hc.
    unfold redemptions_leg in Hr. congruence.
  - right. f_equal. eapply cashflows_for_raises; [|exact Hc].
    apply Forall_forall. intros t Ht. rewrite length_replicate.
    apply elem_of_seq in Ht. lia.
Qed.

(** ** The pillars of the risk-free curve *)

Lemma lookup_map {A B} (f : A -> B) (l : list A) k :
  map f l !! k = f <$> (l !! k).
Proof.
  revert k. induction l as [|x l IH]; intros [|k]; simpl; auto.
Qed.

(** X9.  [riskfree_curve] hands QuantLib as many dates as rates, one more
    than the rows of [zero_curve]: the first pillar is [dates(0)] at rate 0,
    and row [k] of the table gives pillar [k+1], the valuation date moved by
    the duration of the row, at the rate of the row. *)
Theorem riskfree_curve_pillars s :
  exists ds rs s',
    riskfree_curve s
    = (Ok (ZeroCurve ds rs Actual360 UnitedStates Linear Compounded Annual), s')
    /\ length ds = S (length zero_curve)
    /\ length rs = S (length zero_curve)
    /\ ds !! 0%nat = Some (dates 0)
    /\ rs !! 0%nat = Some (of_int 0)
    /\ forall k dur r, zero_curve !! k = Some (dur, r) ->
         ds !! S k = Some (ql_date_plus (dates 0) dur) /\ rs !! S k = Some r.
Proof.
  eexists _, _, _. split; [reflexivity|].
  split; [simpl; by rewrite !length_map|]. split; [simpl; by rewrite length_map|].
  split; [done|]. split; [done|].
  intros k dur r Hk. simpl. rewrite !lookup_map, Hk. done.
Qed.

(** ** What the formulas do to the settings *)

Create HintDb frame.

Lemma touches_ret {A} (a : A) : touches_only_evaluationDate (ret a).
Proof. intros s. by left. Qed.

Lemma touches_lift {A} (o : outcome A) : touches_only_evaluationDate (lift o).
Proof. intros s. by left. Qed.

Lemma touches_put : touches_only_evaluationDate (put_evaluationDate (dates 0)).
Proof. intros s. by right. Qed.

Lemma touches_read {A} (f : Settings -> A) :
  touches_only_evaluationDate (fun s => (Ok (f s), s)).
Proof. intros s. by left. Qed.

Lemma touches_bind {A B} (m : M A) (k : A -> M B) :
  touches_only_evaluationDate m ->
  (forall a, touches_only_evaluationDate (k a)) ->
  touches_only_evaluationDate (bind m k).
Proof.
  intros Hm Hk s. unfold bind. specialize (Hm s).
  destruct (m s) as [[a|e] s1]; simpl in Hm; [|done].
  destruct (Hk a s1) as [->| ->]; [done|]. right.
  destruct Hm as [->| ->]; [done|]. apply set_evaluationDate_twice.
Qed.

#[local] Hint Resolve touches_ret touches_lift touches_put touches_read
  touches_bind : frame.

Lemma touches_riskfree_curve : touches_only_evaluationDate riskfree_curve.
Proof. unfold riskfree_curve. auto with frame. Qed.

Lemma touches_loc i : touches_only_evaluationDate (loc i).
Proof. unfold loc. auto with frame. Qed.

#[local] Hint Resolve touches_riskfree_curve touches_loc : frame.

Lemma touches_fixed_rate_bond i :
  touches_only_evaluationDate (fixed_rate_bond i).
Proof.
  unfold fixed_rate_bond, schedule, discount_curve. auto 20 with frame.
Qed.

#[local] Hint Resolve touches_fixed_rate_bond : frame.

Lemma touches_cashflows i : touches_only_evaluationDate (cashflows i).
Proof. unfold cashflows. auto with frame. Qed.

Lemma touches_redemptions i : touches_only_evaluationDate (redemptions i).
Proof. unfold redemptions. auto with frame. Qed.

Lemma touches_total_for per_bond ts result :
  (forall i, touches_only_evaluationDate (per_bond i)) ->
  touches_only_evaluationDate (total_for per_bond ts result).
Proof.
  intros Hper.
  assert (Hbonds : forall t ids r,
            touches_only_evaluationDate (total_bonds per_bond t ids r)).
  { intros t ids. induction ids as [|i ids IH]; intros r; simpl.
    - auto with frame.
    - unfold item. auto 10 with frame. }
  revert result. induction ts as [|t ts IH]; intros result; simpl;
    auto with frame.
Qed.

Lemma touches_market_values_of ids :
  touches_only_evaluationDate (market_values_of ids).
Proof.
  induction ids as [|i ids IH]; simpl; [auto with frame|].
  unfold market_value, notional, cleanPrice. auto 20 with frame.
Qed.

(** X10.  Whether it returns or raises, every formula leaves the settings
    of the library as it found them except for the evaluation date, which
    it either leaves alone or leaves at [dates(0)]. *)
Theorem formulas_touch_only_evaluationDate bond_id :
  touches_only_evaluationDate riskfree_curve
  /\ touches_only_evaluationDate (schedule bond_id)
  /\ touches_only_evaluationDate (discount_curve bond_id)
  /\ touches_only_evaluationDate (fixed_rate_bond bond_id)
  /\ touches_only_evaluationDate (cashflows bond_id)
  /\ touches_only_evaluationDate (redemptions bond_id)
  /\ touches_only_evaluationDate cashflows_total
  /\ touches_only_evaluationDate redemptions_total
  /\ touches_only_evaluationDate market_values
  /\ touches_only_evaluationDate (z_spread_recalc bond_id).
Proof.
  repeat split.
  - apply touches_riskfree_curve.
  - unfold schedule. auto 10 with frame.
  - unfold discount_curve. auto with frame.
  - apply touches_fixed_rate_bond.
  - apply touches_cashflows.
  - apply touches_redemptions.
  - apply touches_total_for, touches_cashflows.
  - apply touches_total_for, touches_redemptions.
  - apply touches_market_values_of.
  - unfold z_spread_recalc, cleanPrice. auto 20 with frame.
Qed.

(** ** What the formulas take from the settings *)

Lemma blind_ret {A} (a : A) : settings_blind (ret a).
Proof. by intros s s'. Qed.

Lemma blind_lift {A} (o : outcome A) : settings_blind (lift o).
Proof. by intros s s'. Qed.

Lemma blind_bind {A B} (m : M A) (k : A -> M B) :
  settings_blind m -> (forall a, settings_blind (k a)) ->
  settings_blind (bind m k).
Proof.
  intros Hm Hk s s'. unfold bind. specialize (Hm s s').
  destruct (m s) as [[a|e] s1], (m s') as [[a'|e'] s1']; simpl in Hm;
    try done.
  - injection Hm as <-. apply Hk.
  - by injection Hm as <-.
Qed.

Lemma blind_riskfree_curve : settings_blind riskfree_curve.
Proof. by intros s s'. Qed.

Lemma blind_loc i : settings_blind (loc i).
Proof. apply blind_lift. Qed.

Create HintDb blind.
#[local] Hint Resolve blind_ret blind_lift blind_bind blind_riskfree_curve
  blind_loc : blind.

Lemma blind_fixed_rate_bond i : settings_blind (fixed_rate_bond i).
Proof.
  unfold fixed_rate_bond, schedule, discount_curve. auto 20 with blind.
Qed.

#[local] Hint Resolve blind_fixed_rate_bond : blind.

Lemma blind_cashflows i : settings_blind (cashflows i).
Proof. unfold cashflows. auto with blind. Qed.

Lemma blind_redemptions i : settings_blind (redemptions i).
Proof. unfold redemptions. auto with blind. Qed.

Lemma blind_total_for per_bond ts result :
  (forall i, settings_blind (per_bond i)) ->
  settings_blind (total_for per_bond ts result).
Proof.
  intros Hper.
  assert (Hbonds : forall t ids r, settings_blind (total_bonds per_bond t ids r)).
  { intros t ids. induction ids as [|i ids IH]; intros r; simpl.
    - auto with blind.
    - unfold item. auto 10 with blind. }
  revert result. induction ts as [|t ts IH]; intros result; simpl;
    auto with blind.
Qed.

(** X11.  What the curves, schedules, bonds, bucketed series and totals
    are, or which exception is raised instead, does not depend on the
    settings the formula is run under. *)
Theorem values_independent_of_prior_settings bond_id :
  settings_blind riskfree_curve
  /\ settings_blind (schedule bond_id)
  /\ settings_blind (discount_curve bond_id)
  /\ settings_blind (fixed_rate_bond bond_id)
  /\ settings_blind (cashflows bond_id)
  /\ settings_blind (redemptions bond_id)
  /\ settings_blind cashflows_total
  /\ settings_blind redemptions_total.
Proof.
  split; [apply blind_riskfree_curve|].
  split; [unfold schedule; auto 10 with blind|].
  split; [unfold discount_curve; auto with blind|].
  split; [apply blind_fixed_rate_bond|].
  split; [apply blind_cashflows|].
  split; [apply blind_redemptions|].
  split; [apply blind_total_for, blind_cashflows|].
  apply blind_total_for, blind_redemptions.
Qed.

(** ** Totals over any table *)

Lemma total_bonds_raises t pre i post e (cf : Z -> list num) result s :
  (forall j, j ∈ pre -> forall s0, exists s1, cashflows j s0 = (Ok (cf j), s1)) ->
  (forall j, j ∈ pre -> length (cf j) = t_length) ->
  (forall s0, exists s1, cashflows i s0 = (Raise e, s1)) ->
  (t < t_length)%nat -> length result = t_length ->
  exists s', total_bonds cashflows t (pre ++ i :: post) result s = (Raise e, s').
Proof.
  intros Hpre Hlen Hraise Ht. revert result s.
  induction pre as [|j pre IH]; intros result s Hl.
  - cbn [app total_bonds]. unfold bind at 1.
    destruct (Hraise s) as [s1 ->]. by exists s1.
  - cbn [app total_bonds]. unfold bind at 1.
    destruct (Hpre j ltac:(left) s) as [s1 ->].
    destruct (lookup_lt_is_Some_2 (cf j) t) as [x Hx].
    { rewrite Hlen by left. done. }
    destruct (lookup_lt_is_Some_2 result t) as [y Hy]; [lia|].
    unfold bind at 1, item, lift at 1. rewrite Hx.
    unfold bind at 1, lift at 1. rewrite (iadd_ok _ _ _ _ Hy).
    apply IH.
    + intros k Hk. apply Hpre. by right.
    + intros k Hk. apply Hlen. by right.
    + by rewrite length_insert.
Qed.

(** X13.  One failing bond fails the whole total: when the projection has at
    least one period and [cashflows] raises for a bond of the index while it
    returns for the bonds before it, [cashflows_total] raises the same
    exception. *)
Theorem cashflows_total_propagates pre i post e (cf : Z -> list num) s :
  (0 < t_length)%nat ->
  bond_index = pre ++ i :: post ->
  (forall j, j ∈ pre -> forall s0, exists s1, cashflows j s0 = (Ok (cf j), s1)) ->
  (forall s0, exists s1, cashflows i s0 = (Raise e, s1)) ->
  exists s', cashflows_total s = (Raise e, s').
Proof.
  intros Hpos Hidx Hpre Hraise.
  assert (Hlen : forall j, j ∈ pre -> length (cf j) = t_length).
  { intros j Hj. destruct (Hpre j Hj s) as [s1 Hrun].
    destruct (assoc_index bond_data j) as [row Hrow].
    { fold bond_index. rewrite Hidx. apply elem_of_app. by left. }
    rewrite (cashflows_run _ _ _ Hrow) in Hrun. injection Hrun as Hrun _.
    exact (cashflows_leg_length _ _ Hrun). }
  unfold cashflows_total.
  replace (seq 0 t_length) with (0%nat :: seq 1 (t_length - 1))
    by (destruct t_length; [lia|]; simpl; by rewrite Nat.sub_0_r).
  cbn [total_for]. unfold bind. rewrite Hidx.
  destruct (total_bonds_raises 0 pre i post e cf
              (replicate t_length (of_int 0)) s Hpre Hlen Hraise Hpos)
    as [s' ->]; [apply length_replicate|].
  by exists s'.
Qed.

Lemma fold_left_ext_in {A B} (f g : A -> B -> A) (l : list B) a :
  (forall x y, y ∈ l -> f x y = g x y) -> fold_left f l a = fold_left g l a.
Proof.
  revert a. induction l as [|y l IH]; intros a H; simpl; [done|].
  rewrite H by left. apply IH. intros x z Hz. apply H. by right.
Qed.

(** X14.  When the cashflow legs of all bonds of the table are in date
    order, [cashflows_total] returns, and its entry [t] is the sum, over
    the bonds in index order, of the sum of the amounts of the events of
    the bond that lie in period [t]. *)
Theorem cashflows_total_of_ordered_legs s :
  (forall i row, assoc bond_data i = Some row ->
                 in_order (ql_cashflows (bond_of_row row)) = true) ->
  exists tc s',
    cashflows_total s = (Ok tc, s')
    /\ length tc = t_length
    /\ forall t, (t < t_length)%nat ->
         tc !! t
         = Some (fold_left
                   (fun acc i =>
                      add acc
                        match assoc bond_data i with
                        | Some row =>
                            sum_amounts (List.filter (in_bucket t)
                                           (ql_cashflows (bond_of_row row)))
                        | None => of_int 0
                        end)
                   bond_index (of_int 0)).
Proof.
  intros Hsorted.
  set (cf := fun i => match assoc bond_data i with
                      | Some row =>
                          bucket_sum (ql_cashflows (bond_of_row row))
                            <$> seq 0 t_length
                      | None => []
                      end).
  assert (Hcf : forall i, i ∈ bond_index ->
            forall s0, exists s1, cashflows i s0 = (Ok (cf i), s1)).
  { intros i Hi s0. destruct (assoc_index _ _ Hi) as [row Hrow].
    eexists. rewrite (cashflows_run _ _ _ Hrow).
    rewrite (cashflows_leg_sorted _ (Hsorted _ _ Hrow)).
    unfold cf. by rewrite Hrow. }
  assert (Hlen : forall i, i ∈ bond_index -> length (cf i) = t_length).
  { intros i Hi. destruct (assoc_index _ _ Hi) as [row Hrow].
    unfold cf. rewrite Hrow. by rewrite length_fmap, length_seq. }
  destruct (total_sum cashflows cf Hcf Hlen s) as (tc & s' & Hrun & Hl & Hsum).
  exists tc, s'. split; [done|]. split; [done|].
  intros t Ht. rewrite (Hsum t Ht). f_equal. unfold sum_over_bonds.
  apply fold_left_ext_in. intros acc i Hi. f_equal.
  destruct (assoc_index _ _ Hi) as [row Hrow]. unfold cf. rewrite Hrow.
  apply nth_lookup. by apply buckets_lookup.
Qed.

(** ** The recalculated z-spread *)

(** X15.  For a bond of the table [z_spread_recalc] asks the solver for the
    spread of the bond of the row at the clean price that the engine of
    that bond gives, over the risk-free curve that this engine shifts by
    the z-spread of the row; it passes the Thirty/360 day count although
    the bond accrues on Actual/360.  The price is read and the solver runs
    under the settings at entry or under these with the evaluation date at
    [dates(0)]. *)
Theorem z_spread_recalc_solves_over_riskfree_curve bond_id row s :
  assoc bond_data bond_id = Some row ->
  exists rf sp ss,
    fst (fixed_rate_bond bond_id s) = Ok (bond_of_row row)
    /\ fst (riskfree_curve s) = Ok rf
    /\ pricingEngine (bond_of_row row)
       = Some (DiscountingBondEngine
                 (ZeroSpreadedTermStructure rf (z_spread row) Compounded Annual))
    /\ accrualDayCounter (bond_of_row row) = Actual360
    /\ (sp = s \/ sp = set_evaluationDate (dates 0) s)
    /\ (ss = s \/ ss = set_evaluationDate (dates 0) s)
    /\ fst (z_spread_recalc bond_id s)
       = Ok (ql_zSpread ss (bond_of_row row)
               (ql_cleanPrice sp (bond_of_row row))
               rf Thirty360 Compounded Annual).
Proof.
  intros Hrow.
  exists the_riskfree_curve,
    (set_evaluationDate (dates 0) s), (set_evaluationDate (dates 0) s).
  split; [by rewrite (fixed_rate_bond_run _ _ _ Hrow)|].
  split; [by rewrite riskfree_curve_run|].
  split; [done|]. split; [done|]. split; [by right|]. split; [by right|].
  unfold z_spread_recalc, cleanPrice, bind.
  rewrite !(fixed_rate_bond_run _ _ _ Hrow), riskfree_curve_run.
  by rewrite !set_evaluationDate_twice.
Qed.

End Space.

(** * Properties across configurations *)

(** X16.  A later projection end never gives a shorter projection. *)
Theorem t_length_monotone (date_init end1 end2 : Date) :
  date_leb end1 end2 = true ->
  (t_length date_init end1 <= t_length date_init end2)%nat.
Proof.
  intros H. apply t_length_least.
  eapply date_leb_trans; [exact H|apply t_length_stop].
Qed.

(** X17.  When the projection end is itself the point [n] of the axis,
    [t_length()] is [n]. *)
Theorem t_length_of_axis_point (date_init : Date) (n : nat) :
  t_length date_init (dates date_init n) = n.
Proof.
  apply Nat.le_antisymm.
  - apply t_length_least, dates_le. lia.
  - destruct (decide (n <= t_length date_init (dates date_init n))%nat)
      as [|Hlt]; [done|]. exfalso.
    pose proof (t_length_stop date_init (dates date_init n)) as Hstop.
    unfold date_leb in Hstop. rewrite dates_lt in Hstop by lia. done.
Qed.

Lemma total_for_empty_table {num : Type} {arith : @Arith num}
    (per_bond : Z -> M (list num)) ts result s :
  total_for [] per_bond ts result s = (Ok result, s).
Proof.
  revert result s. induction ts as [|t ts IH]; intros result s; [done|].
  cbn [total_for]. unfold bind. simpl. apply IH.
Qed.

(** X18.  On a bond table without rows the totals are [t_length()] times the
    integer 0 and the list of market values is empty; the settings are not
    touched. *)
Theorem empty_table_totals {num : Type} {arith : @Arith num} {ql : @QuantLib num}
    (date_init date_end : Date) (zero_curve : list (string * num)) (s : Settings) :
  cashflows_total date_init date_end [] zero_curve s
  = (Ok (replicate (t_length date_init date_end) (of_int 0)), s)
  /\ redemptions_total date_init date_end [] zero_curve s
     = (Ok (replicate (t_length date_init date_end) (of_int 0)), s)
  /\ market_values date_init [] zero_curve s = (Ok [], s).
Proof.
  unfold cashflows_total, redemptions_total.
  by rewrite !total_for_empty_table.
Qed.

(** * A sample model

    The space run on a three-bond table with integer amounts, a valuation
    date of 2022-01-01 and a projection end of 2025-01-01, against a stand-in
    for the library whose legs are written out by hand. *)

Module Sample.

#[local] Instance Z_arith : @Arith Z :=
  {| add := Z.add; mul := Z.mul; div := Z.div; of_int := fun z => z |}.

Definition valuation : Date := mkDate 2022 1 1.
Definition horizon : Date := mkDate 2025 1 1.

(** The settings before anything has run. *)
Definition s0 : Settings := mkSettings (mkDate 2000 1 1) false None false.

(** The settings after a bond has been built. *)
Definition s1 : Settings := set_evaluationDate valuation s0.

Definition bond_data : list (Z * BondRow) :=
  [ (1, mkBondRow 0 100 (mkDate 2020 6 1) 4 (mkDate 2024 6 1) "1Y" 10 3);
    (2, mkBondRow 0 200 (mkDate 2020 1 1) 6 (mkDate 2026 1 1) "6M" 4 2);
    (3, mkBondRow 2 300 (mkDate 2018 9 1) 6 (mkDate 2024 9 1) "6Y" 5 1) ].

Definition zero_curve : list (string * Z) := [ ("6M", 1); ("1Y", 2) ].

Definition cf (y m d : Z) (amount : Z) : CashFlow := mkCashFlow (mkDate y m d) amount.

(** A stand-in for the library: the coupon events of each sample bond, its
    redemption at maturity, its face amount as notional and a clean price
    that is 98 at the valuation date and 0 at any other evaluation date. *)
#[local] Instance ql : QuantLib :=
  {| ql_cashflows b :=
       if faceAmount b =? 100 then [cf 2022 6 1 10; cf 2023 6 1 10]
       else if faceAmount b =? 200
       then [cf 2021 1 1 4; cf 2022 1 1 4; cf 2023 1 1 7; cf 2025 1 1 9; cf 2026 1 1 9]
       else [cf 2022 3 1 5; cf 2022 9 1 5; cf 2024 3 1 6];
     ql_redemptions b :=
       [mkCashFlow (terminationDate (bond_schedule b)) (faceAmount b)];
     ql_notional _ b := faceAmount b;
     ql_cleanPrice s _ :=
       if date_leb (evaluationDate s) valuation && date_leb valuation (evaluationDate s)
       then 98 else 0;
     ql_date_plus d _ := add_1Y d |}.

(** A library at fault: both legs of every bond carry a later event before
    an earlier one. *)
Definition ql_unordered : QuantLib :=
  {| ql_cashflows _ := [cf 2023 6 1 10; cf 2022 6 1 5];
     ql_redemptions _ := [cf 2023 6 1 10; cf 2022 6 1 5];
     ql_notional _ b := faceAmount b;
     ql_cleanPrice _ _ := 98;
     ql_date_plus d _ := add_1Y d |}.


Definition bond (i : Z) : FixedRateBond :=
  match assoc bond_data i with
  | Some row => bond_of_row valuation zero_curve row
  | None => bond_of_row valuation zero_curve (mkBondRow 0 0 valuation 0 valuation "" 0 0)
  end.

(** The series of the sample bonds. *)
Definition cashflow_series (i : Z) : list Z :=
  if i =? 1 then [10; 10; 0] else if i =? 2 then [4; 7; 0] else [10; 0; 6].

Definition redemption_series (i : Z) : list Z :=
  if i =? 1 then [0; 0; 100] else if i =? 2 then [0; 0; 0] else [0; 0; 300].

(** ** The examples of the specification *)

Example axis_2022_2025 :
  map (dates valuation) (seq 0 4)
  = [mkDate 2022 1 1; mkDate 2023 1 1; mkDate 2024 1 1; mkDate 2025 1 1]
  /\ t_length valuation horizon = 3%nat.
Proof. split; reflexivity. Qed.

Example two_coupons :
  cashflows_leg valuation horizon [cf 2022 6 1 10; cf 2023 6 1 10] = Ok [10; 10; 0].
Proof. reflexivity. Qed.

Example event_on_boundary :
  cashflows_leg valuation horizon [cf 2023 1 1 7] = Ok [0; 7; 0].
Proof. reflexivity. Qed.

Example default_horizon : t_length valuation (mkDate 2053 1 1) = 31%nat.
Proof. vm_compute. reflexivity. Qed.

Example leap_day_axis :
  map (dates (mkDate 2024 2 29)) (seq 0 5)
  = [mkDate 2024 2 29; mkDate 2025 2 28; mkDate 2026 2 28; mkDate 2027 2 28;
     mkDate 2028 2 28].
Proof. reflexivity. Qed.

Example sample_cashflows :
  cashflows valuation horizon bond_data zero_curve 2 s0 = (Ok [4; 7; 0], s1)
  /\ redemptions valuation horizon bond_data zero_curve 3 s0 = (Ok [0; 0; 300], s1)
  /\ cashflows valuation horizon bond_data zero_curve 7 s0 = (Raise KeyError, s0).
Proof. repeat split; reflexivity. Qed.

Example sample_totals :
  cashflows_total valuation horizon bond_data zero_curve s0 = (Ok [24; 17; 6], s1)
  /\ redemptions_total valuation horizon bond_data zero_curve s0 = (Ok [0; 0; 400], s1)
  /\ market_values valuation bond_data zero_curve s0 = (Ok [98; 196; 294], s1).
Proof. repeat split; reflexivity. Qed.

(** ** The theorems at the sample *)

Lemma t_length_unique_bracket_witness :
  date_ltb valuation horizon = true
  /\ (1 <= t_length valuation horizon)%nat
  /\ date_leb horizon (dates valuation (t_length valuation horizon)) = true
  /\ date_ltb (dates valuation (t_length valuation horizon - 1)) horizon = true
  /\ forall n, date_leb horizon (dates valuation n) = true ->
               date_ltb (dates valuation (n - 1)) horizon = true ->
               n = t_length valuation horizon.
Proof.
  split; [reflexivity|].
  destruct (t_length_unique_bracket valuation horizon eq_refl)
    as (_ & _ & H1 & H2 & H3 & H4).
  exact (conj H1 (conj H2 (conj H3 H4))).
Defined.

Lemma cashflows_redemptions_bucketed_witness :
  exists cfs rds,
    cashflows valuation horizon bond_data zero_curve 2 s0 = (Ok cfs, s1)
    /\ redemptions valuation horizon bond_data zero_curve 2 s0 = (Ok rds, s1)
    /\ length cfs = 3%nat /\ length rds = 3%nat
    /\ cfs !! 1%nat
       = Some (sum_amounts (List.filter (in_bucket valuation 1) (ql_cashflows (bond 2)))).
Proof.
  assert (Hbond : fixed_rate_bond valuation bond_data zero_curve 2 s0
                  = (Ok (bond 2), s1)) by reflexivity.
  destruct (cashflows_redemptions_bucketed valuation horizon bond_data zero_curve
              2 s0 (bond 2) s1 Hbond eq_refl eq_refl)
    as (cfs & rds & Hc & Hr & Hlc & Hlr & Hb & _).
  exists cfs, rds.
  exact (conj Hc (conj Hr (conj Hlc (conj Hlr (proj1 (Hb 1%nat ltac:(vm_compute; lia))))))).
Defined.

Lemma events_before_valuation_dropped_witness :
  exists cfs,
    cashflows valuation horizon bond_data zero_curve 2 s0 = (Ok cfs, s1)
    /\ cashflows_leg valuation horizon
         [cf 2022 1 1 4; cf 2023 1 1 7; cf 2025 1 1 9; cf 2026 1 1 9] = Ok cfs.
Proof.
  assert (Hbond : fixed_rate_bond valuation bond_data zero_curve 2 s0
                  = (Ok (bond 2), s1)) by reflexivity.
  destruct (events_before_valuation_dropped valuation horizon bond_data zero_curve
              2 s0 (bond 2) s1 Hbond eq_refl eq_refl)
    as (_ & (cfs & rds & Hc & _ & Hf & _) & _).
  exists cfs. exact (conj Hc Hf).
Defined.


Lemma sample_cashflows_return i :
  i ∈ bond_index bond_data ->
  forall s, exists s',
    cashflows valuation horizon bond_data zero_curve i s = (Ok (cashflow_series i), s').
Proof.
  intros Hi s. unfold bond_index in Hi. simpl in Hi.
  repeat (apply elem_of_cons in Hi as [->|Hi]); try (eexists; reflexivity).
  by apply elem_of_nil in Hi.
Defined.

Lemma sample_redemptions_return i :
  i ∈ bond_index bond_data ->
  forall s, exists s',
    redemptions valuation horizon bond_data zero_curve i s = (Ok (redemption_series i), s').
Proof.
  intros Hi s. unfold bond_index in Hi. simpl in Hi.
  repeat (apply elem_of_cons in Hi as [->|Hi]); try (eexists; reflexivity).
  by apply elem_of_nil in Hi.
Defined.

Lemma totals_sum_over_bonds_witness :
  exists tc tr,
    fst (cashflows_total valuation horizon bond_data zero_curve s0) = Ok tc
    /\ fst (redemptions_total valuation horizon bond_data zero_curve s0) = Ok tr
    /\ tc !! 1%nat = Some (0 + nth 1 (cashflow_series 1) 0
                             + nth 1 (cashflow_series 2) 0
                             + nth 1 (cashflow_series 3) 0)
    /\ tr !! 2%nat = Some (0 + nth 2 (redemption_series 1) 0
                             + nth 2 (redemption_series 2) 0
                             + nth 2 (redemption_series 3) 0).
Proof.
  destruct (totals_sum_over_bonds valuation horizon bond_data zero_curve
              cashflow_series redemption_series s0
              sample_cashflows_return sample_redemptions_return)
    as (tc & tr & sa & sb & Hc & Hr & _ & _ & Hsum).
  exists tc, tr. rewrite Hc, Hr.
  exact (conj eq_refl (conj eq_refl
           (conj (proj1 (Hsum 1%nat ltac:(vm_compute; lia)))
                 (proj2 (Hsum 2%nat ltac:(vm_compute; lia)))))).
Defined.

Lemma schedule_semiannual_iff_6Y_witness :
  exists sch,
    schedule bond_data 2 s0 = (Ok sch, s0)
    /\ frequency (sch_tenor sch) = Annual.
Proof.
  destruct (schedule_semiannual_iff_6Y valuation bond_data zero_curve 2
              (mkBondRow 0 200 (mkDate 2020 1 1) 6 (mkDate 2026 1 1) "6M" 4 2)
              s0 eq_refl)
    as (sch & Hrun & _ & _ & _ & _ & H6M & _).
  exists sch. exact (conj Hrun (H6M eq_refl)).
Defined.

Lemma t_length_end_before_start_witness :
  date_ltb (mkDate 2021 1 1) valuation = true
  /\ t_length valuation (mkDate 2021 1 1) = 0%nat
  /\ cashflows_total valuation (mkDate 2021 1 1) bond_data zero_curve s0 = (Ok [], s0).
Proof.
  split; [reflexivity|].
  destruct (t_length_end_before_start valuation (mkDate 2021 1 1) bond_data
              zero_curve eq_refl) as (_ & Hzero & _ & Htotals).
  exact (conj Hzero (proj1 (Htotals s0))).
Defined.

(** ** Where the code departs from the specification *)

(** C5, the claim refuted: with the projection end a year before the
    valuation date, [t_length] and the totals return normally. *)
Lemma end_before_start_returns :
  date_ltb (mkDate 2021 1 1) valuation = true
  /\ t_length valuation (mkDate 2021 1 1) = 0%nat
  /\ cashflows valuation (mkDate 2021 1 1) bond_data zero_curve 1 s0 = (Ok [], s1)
  /\ cashflows_total valuation (mkDate 2021 1 1) bond_data zero_curve s0 = (Ok [], s0).
Proof. repeat split; reflexivity. Qed.

(** C8, the claim refuted: after [riskfree_curve] the evaluation date is the
    valuation date and not the date that was set before the call. *)
Lemma riskfree_curve_does_not_restore :
  evaluationDate s0 = mkDate 2000 1 1
  /\ evaluationDate (snd (riskfree_curve valuation zero_curve s0)) = mkDate 2022 1 1
  /\ snd (riskfree_curve valuation zero_curve s0) <> s0.
Proof. repeat split; [reflexivity..|]. intros H. discriminate H. Qed.


(** ** Further properties at the sample *)

(** A stand-in for the solver. *)
#[local] Instance bond_functions : BondFunctions :=
  {| ql_zSpread _ b price _ _ _ _ := faceAmount b - price |}.

Lemma missing_bond_raises_KeyError_witness :
  cashflows valuation horizon bond_data zero_curve 7 s0 = (Raise KeyError, s0)
  /\ z_spread_recalc valuation bond_data zero_curve 7 s0 = (Raise KeyError, s0).
Proof.
  assert (Hrow : assoc bond_data 7 = None) by reflexivity.
  destruct (missing_bond_raises_KeyError valuation horizon bond_data zero_curve
              7 s0 Hrow) as (_ & _ & _ & Hc & _ & Hz).
  exact (conj Hc Hz).
Defined.

Lemma cashflows_assertion_sound_witness :
  exists row,
    assoc bond_data 1 = Some row
    /\ out_of_order (@ql_cashflows _ ql_unordered
                       (@bond_of_row _ _ ql_unordered valuation zero_curve row)).
Proof.
  assert (Hraise : @cashflows _ _ ql_unordered valuation horizon bond_data
                     zero_curve 1 s0 = (Raise AssertionError, s1))
    by reflexivity.
  exact (@cashflows_assertion_sound Z Z_arith ql_unordered valuation horizon
           bond_data zero_curve 1 s0 s1 Hraise).
Defined.

Lemma cashflows_detects_reachable_disorder_witness :
  @cashflows _ _ ql_unordered valuation horizon bond_data zero_curve 1 s0
  = (Raise AssertionError, s1).
Proof.
  assert (Hbond : @fixed_rate_bond _ _ ql_unordered valuation bond_data
                    zero_curve 1 s0 = (Ok (bond 1), s1)) by reflexivity.
  assert (Hpos : (0 < t_length valuation horizon)%nat) by (vm_compute; lia).
  assert (Ha : @ql_cashflows _ ql_unordered (bond 1) !! 0%nat
               = Some (cf 2023 6 1 10)) by reflexivity.
  assert (Hb : @ql_cashflows _ ql_unordered (bond 1) !! 1%nat
               = Some (cf 2022 6 1 5)) by reflexivity.
  assert (Hlt : date_ltb (cf_date (cf 2022 6 1 5)) (cf_date (cf 2023 6 1 10))
                = true) by reflexivity.
  apply (@cashflows_detects_reachable_disorder Z Z_arith ql_unordered
           valuation horizon bond_data zero_curve 1 s0 (bond 1) s1
           0%nat _ _ Hbond Hpos Ha Hb Hlt).
  intros k e Hk He. assert (k = 0%nat) as -> by lia.
  rewrite Ha in He. injection He as <-. reflexivity.
Defined.

Lemma dates_anniversary_witness :
  dates valuation 3 = mkDate 2025 1 1
  /\ dates (mkDate 2024 2 29) 4 = mkDate 2028 2 28.
Proof.
  destruct (dates_anniversary valuation) as [Hsame _].
  destruct (dates_anniversary (mkDate 2024 2 29)) as [_ Hleap].
  split.
  - apply (Hsame ltac:(simpl; lia) 3%nat).
  - apply (Hleap eq_refl eq_refl eq_refl 3%nat).
Defined.

Lemma buckets_partition_horizon_witness :
  in_horizon valuation horizon (cf 2024 12 31 1) = true.
Proof.
  destruct (buckets_partition_horizon valuation horizon (cf 2024 12 31 1))
    as (_ & _ & Hcover).
  exact (Hcover eq_refl eq_refl).
Defined.

Lemma nothing_in_horizon_all_zero_witness :
  redemptions_leg valuation horizon [cf 2026 1 1 9; cf 2021 1 1 4]
  = Ok [0; 0; 0].
Proof.
  refine (proj1 (nothing_in_horizon_all_zero valuation horizon
                   [cf 2026 1 1 9; cf 2021 1 1 4] _)).
  intros e He.
  repeat (apply elem_of_cons in He as [->|He]; [reflexivity|]).
  by apply elem_of_nil in He.
Defined.


Lemma cashflows_total_propagates_witness :
  exists s',
    @cashflows_total _ _ ql_unordered valuation horizon bond_data zero_curve s0
    = (Raise AssertionError, s').
Proof.
  apply (@cashflows_total_propagates Z Z_arith ql_unordered valuation horizon
           bond_data zero_curve [] 1 [2; 3] AssertionError (fun _ => []) s0).
  - vm_compute. lia.
  - reflexivity.
  - intros j Hj. by apply elem_of_nil in Hj.
  - intros s. eexists. reflexivity.
Defined.

Lemma cashflows_total_of_ordered_legs_witness :
  exists tc s',
    cashflows_total valuation horizon bond_data zero_curve s0 = (Ok tc, s')
    /\ length tc = 3%nat.
Proof.
  destruct (cashflows_total_of_ordered_legs valuation horizon bond_data
              zero_curve s0) as (tc & s' & Hrun & Hlen & _).
  { intros i row Hrow. cbn [assoc bond_data] in Hrow.
    destruct (1 =? i); [injection Hrow as <-; reflexivity|].
    destruct (2 =? i); [injection Hrow as <-; reflexivity|].
    destruct (3 =? i); [injection Hrow as <-; reflexivity|].
    done. }
  exists tc, s'. exact (conj Hrun Hlen).
Defined.


Lemma t_length_monotone_witness :
  (t_length valuation horizon <= t_length valuation (mkDate 2053 1 1))%nat.
Proof. exact (t_length_monotone valuation horizon (mkDate 2053 1 1) eq_refl). Defined.

(** ** The axis of the library, the float-free sums and the priced bonds at the sample *)

(** C2, the claim refuted: the projection end is after the valuation date,
    but the axis would have to pass the year 2199 to reach it, and
    [t_length] raises. *)
Lemma t_length_raises_at_range_end :
  date_ltb (mkDate 2199 6 1) (mkDate 2199 12 31) = true
  /\ dates_ql (mkDate 2199 6 1) 1 = Raise RuntimeError
  /\ t_length_ql (mkDate 2199 6 1) (mkDate 2199 12 31) = Raise RuntimeError.
Proof. repeat split; reflexivity. Qed.

Example t_length_ql_2022_2025 : t_length_ql valuation horizon = Ok 3%nat.
Proof. reflexivity. Qed.

Lemma t_length_ql_unique_bracket_witness :
  exists N a b,
    t_length_ql valuation horizon = Ok N /\ (1 <= N)%nat
    /\ dates_ql valuation N = Ok a /\ date_leb horizon a = true
    /\ dates_ql valuation (N - 1) = Ok b /\ date_ltb b horizon = true.
Proof.
  destruct (t_length_ql_unique_bracket valuation horizon eq_refl eq_refl eq_refl)
    as (_ & _ & z & _ & Hyear & _ & Hreturns).
  destruct (Hreturns (Hyear ltac:(simpl; lia)))
    as (N & a & b & H1 & H2 & H3 & H4 & H5 & H6 & _).
  exists N, a, b. exact (conj H1 (conj H2 (conj H3 (conj H4 (conj H5 H6))))).
Defined.

Lemma cashflows_sum_by_buckets_witness :
  exists cfs,
    cashflows valuation horizon bond_data zero_curve 2 s0 = (Ok cfs, s1)
    /\ concat ((fun t => List.filter (in_bucket valuation t) (ql_cashflows (bond 2)))
               <$> seq 0 (t_length valuation horizon))
       = List.filter (in_horizon valuation horizon) (ql_cashflows (bond 2))
    /\ sum_list cfs
       = sum_amounts (List.filter (in_horizon valuation horizon)
                        (ql_cashflows (bond 2))).
Proof.
  assert (Hbond : fixed_rate_bond valuation bond_data zero_curve 2 s0
                  = (Ok (bond 2), s1)) by reflexivity.
  destruct (@cashflows_sum_by_buckets Z Z_arith ql
              valuation horizon bond_data zero_curve 2 s0 (bond 2) s1 Hbond eq_refl)
    as (cfs & Hc & _ & _ & Hevents & _ & Hexact).
  exists cfs.
  exact (conj Hc (conj Hevents (Hexact Z.add_assoc Z.add_0_l Z.add_0_r))).
Defined.


(** A zero curve that reaches past the maturities of the sample bonds, and
    a stand-in for the library that reads its durations. *)
Definition zero_curve_5Y : list (string * Z) := [ ("1Y", 2); ("5Y", 3) ].

Definition ql_covering : QuantLib :=
  {| ql_cashflows := @ql_cashflows _ ql;
     ql_redemptions := @ql_redemptions _ ql;
     ql_notional := @ql_notional _ ql;
     ql_cleanPrice := @ql_cleanPrice _ ql;
     ql_date_plus d dur :=
       if String.eqb dur "5Y"
       then add_1Y (add_1Y (add_1Y (add_1Y (add_1Y d))))
       else add_1Y d |}.

Example covering_curve :
  fst (@riskfree_curve _ _ ql_covering valuation zero_curve_5Y s0)
  = Ok (ZeroCurve [mkDate 2022 1 1; mkDate 2023 1 1; mkDate 2027 1 1] [0; 2; 3]
          Actual360 UnitedStates Linear Compounded Annual).
Proof. reflexivity. Qed.

Lemma market_values_notional_times_price_witness :
  exists vs,
    fst (@market_values _ _ ql_covering valuation bond_data zero_curve_5Y s0)
    = Ok vs
    /\ length vs = 3%nat
    /\ exists row sn sp,
         assoc bond_data 2 = Some row
         /\ face_value row = 200
         /\ vs !! 1%nat
            = Some ((@ql_notional _ ql_covering sn
                       (@bond_of_row _ _ ql_covering valuation zero_curve_5Y row)
                     * @ql_cleanPrice _ ql_covering sp
                         (@bond_of_row _ _ ql_covering valuation zero_curve_5Y row))
                    `div` 100).
Proof.
  destruct (@market_values_notional_times_price Z Z_arith ql_covering
              valuation bond_data zero_curve_5Y s0)
    as (vs & s' & Hrun & Hlen & Hvs).
  exists vs. rewrite Hrun. split; [reflexivity|]. split; [exact Hlen|].
  destruct (Hvs 1%nat 2 eq_refl)
    as (row & rf & sn & sp & Hrow & _ & _ & _ & _ & _ & _ & _ & Hv).
  exists row, sn, sp. split; [exact Hrow|]. split; [|exact Hv].
  vm_compute in Hrow. injection Hrow as <-. reflexivity.
Defined.

Lemma z_spread_recalc_solves_over_riskfree_curve_witness :
  exists rf sp ss,
    fst (@riskfree_curve _ _ ql_covering valuation zero_curve_5Y s0) = Ok rf
    /\ fst (@z_spread_recalc _ _ ql_covering valuation bond_data zero_curve_5Y
              bond_functions 2 s0)
       = Ok (ql_zSpread ss
               (@bond_of_row _ _ ql_covering valuation zero_curve_5Y
                  (mkBondRow 0 200 (mkDate 2020 1 1) 6 (mkDate 2026 1 1) "6M" 4 2))
               (@ql_cleanPrice _ ql_covering sp
                  (@bond_of_row _ _ ql_covering valuation zero_curve_5Y
                     (mkBondRow 0 200 (mkDate 2020 1 1) 6 (mkDate 2026 1 1) "6M" 4 2)))
               rf Thirty360 Compounded Annual).
Proof.
  assert (Hrow : assoc bond_data 2
                 = Some (mkBondRow 0 200 (mkDate 2020 1 1) 6 (mkDate 2026 1 1)
                           "6M" 4 2)) by reflexivity.
  destruct (@z_spread_recalc_solves_over_riskfree_curve Z Z_arith ql_covering
              valuation bond_data zero_curve_5Y bond_functions 2 _ s0 Hrow)
    as (rf & sp & ss & _ & Hrf & _ & _ & _ & _ & Hz).
  exists rf, sp, ss. exact (conj Hrf Hz).
Defined.

End Sample.

(** * A sample in floating point

    The loops run on Python's floats: the numbers are the binary64 floats
    and the operations are theirs. *)

Module FloatSample.

#[local] Instance float_arith : @Arith PrimFloat.float :=
  {| add := PrimFloat.add;
     mul := PrimFloat.mul;
     div := PrimFloat.div;
     of_int z :=
       if (z <? 0)%Z then PrimFloat.opp (PrimFloat.of_uint63 (Uint63.of_Z (- z)))
       else PrimFloat.of_uint63 (Uint63.of_Z z) |}.

Import PrimFloat.
#[local] Set Warnings "-inexact-float".

Definition bond_data : list (Z * BondRow) :=
  [ (1, mkBondRow 0 10 (mkDate 2021 9 1) 2 (mkDate 2023 9 1) "1Y" 0.02%float 0.01%float) ].

Definition zero_curve : list (string * float) := [ ("5Y", 0.02%float) ].

(** A stand-in for the library: three events of 0.1, 0.2 and 0.3, the last
    two in the same period. *)
#[local] Instance ql : QuantLib :=
  {| ql_cashflows _ :=
       [ mkCashFlow (mkDate 2022 9 1) 0.1%float;
         mkCashFlow (mkDate 2023 3 1) 0.2%float;
         mkCashFlow (mkDate 2023 9 1) 0.3%float ];
     ql_redemptions b :=
       [ mkCashFlow (terminationDate (bond_schedule b)) (faceAmount b) ];
     ql_notional _ b := faceAmount b;
     ql_cleanPrice _ _ := 98%float;
     ql_date_plus d _ := add_1Y (add_1Y (add_1Y (add_1Y (add_1Y d)))) |}.

Definition leg : list CashFlow :=
  [ mkCashFlow (mkDate 2022 9 1) 0.1%float;
    mkCashFlow (mkDate 2023 3 1) 0.2%float;
    mkCashFlow (mkDate 2023 9 1) 0.3%float ].

(** C3, the claim refuted: the events are in date order and all in the
    horizon; the buckets are 0.1, 0.5 and 0 and their sum is 0.6, but the
    sum of the amounts of the events is 0.6000000000000001. *)
Lemma float_sum_of_buckets_differs :
  in_order leg = true
  /\ List.filter (in_horizon Sample.valuation Sample.horizon) leg = leg
  /\ cashflows Sample.valuation Sample.horizon bond_data zero_curve 1 Sample.s0
     = (Ok [0.1%float; 0.5%float; 0%float], Sample.s1)
  /\ sum_list [0.1%float; 0.5%float; 0%float] = 0.6%float
  /\ sum_amounts (List.filter (in_horizon Sample.valuation Sample.horizon) leg)
     = 0.6000000000000001%float
  /\ PrimFloat.eqb 0.6%float 0.6000000000000001%float = false.
Proof. repeat split; vm_compute; reflexivity. Qed.

End FloatSample.
